(** * freedvtnc2 command server: a shallow embedding of [command_server.py]

    The development follows [src/freedvtnc2/command_server.py]:

    - [PyStr]: the string operations the dispatcher uses ([str.upper],
      [str.split(None, 1)], [', '.join]);
    - [PyFloat]: Python's [float(str)], [repr(float)] and [format(x, '.1f')]
      on IEEE binary64 values, with exact integer arithmetic;
    - [PyVal], [PyDict]: the values stored in the [argparse.Namespace] and the
      insertion-ordered dictionary behind it;
    - [PyPath]: [pathlib]'s joining of a POSIX path and a name;
    - [Collaborators]: the control surface of the modem, the audio devices,
      the tone generator and the file system, which the server only calls;
    - the handlers [_cmd_*] and the dispatcher [_process_command], in a state
      monad in which a raised exception keeps the mutations done before it;
    - [Interleave]: the steps of [_cmd_clear] run against a concurrent
      thread that takes the send-queue lock;
    - [Link]: [_handle_connection], the framing of the lines of one
      connection, [Utf8], the decoding of what was received, and [Wire], a
      socket with a script;
    - [Life]: [start], [stop] and [_server_loop], and [Port], a listening
      side with a script.

    Text is modelled as [string] over ASCII; a character outside ASCII stands
    as the bytes of its UTF-8 encoding, has no case and is not whitespace
    here.  Exceptions are the subclasses of
    [Exception] (what [except Exception] catches).  Calls to [logger] have no
    effect on what the server returns or stores and are left out. *)

From Stdlib Require Import ZArith List String Ascii Bool Lia.
From Stdlib Require Import Numbers.DecimalString.
Import ListNotations.

Local Open Scope string_scope.
Local Open Scope Z_scope.

(* ------------------------------------------------------------------------- *)
(** ** Python strings *)

Module PyStr.

Definition code (c : ascii) : Z := Z.of_N (N_of_ascii c).

Definition is_lower (c : ascii) : bool := (97 <=? code c) && (code c <=? 122).

(** [str.upper] on one ASCII character. *)
Definition upper_char (c : ascii) : ascii :=
  if is_lower c then ascii_of_N (Z.to_N (code c - 32)) else c.

(** [str.upper]. *)
Fixpoint upper (s : string) : string :=
  match s with
  | EmptyString => EmptyString
  | String c s' => String (upper_char c) (upper s')
  end.

(** [str.isspace] on one ASCII character: TAB, LF, VT, FF, CR, the four
    separators FS, GS, RS, US and the space. *)
Definition is_space (c : ascii) : bool :=
  ((9 <=? code c) && (code c <=? 13)) || ((28 <=? code c) && (code c <=? 32)).

(** Skip the whitespace at the front. *)
Fixpoint lstrip (s : string) : string :=
  match s with
  | EmptyString => EmptyString
  | String c s' => if is_space c then lstrip s' else s
  end.

(** The longest whitespace-free prefix and what follows it. *)
Fixpoint take_word (s : string) : string * string :=
  match s with
  | EmptyString => (EmptyString, EmptyString)
  | String c s' =>
      if is_space c then (EmptyString, s)
      else let (w, r) := take_word s' in (String c w, r)
  end.

(** [s.split(None, 1)]: leading whitespace is skipped, the first word is cut
    at the first run of whitespace, that run is skipped and the rest of the
    string, when there is any, is the second part, trailing whitespace
    included. *)
Definition split1 (s : string) : list string :=
  match lstrip s with
  | EmptyString => []
  | t =>
      let (w, r) := take_word t in
      match lstrip r with
      | EmptyString => [w]
      | r' => [w; r']
      end
  end.

(** [not s]: the string is empty. *)
Definition is_empty (s : string) : bool :=
  match s with EmptyString => true | _ => false end.

(** [sep.join(l)]. *)
Fixpoint join (sep : string) (l : list string) : string :=
  match l with
  | [] => EmptyString
  | [x] => x
  | x :: rest => x ++ sep ++ join sep rest
  end.

(** [x in l] for a list of strings. *)
Fixpoint mem (x : string) (l : list string) : bool :=
  match l with
  | [] => false
  | y :: l' => String.eqb x y || mem x l'
  end.

(** [s.startswith(p)]. *)
Fixpoint starts_with (p s : string) : bool :=
  match p, s with
  | EmptyString, _ => true
  | String a p', String b s' => Ascii.eqb a b && starts_with p' s'
  | String _ _, EmptyString => false
  end.

(** [key.replace("_", "-")]. *)
Fixpoint hyphenate (s : string) : string :=
  match s with
  | EmptyString => EmptyString
  | String c s' =>
      String (if Ascii.eqb c "_"%char then "-"%char else c) (hyphenate s')
  end.

(** [str(n)] for an integer. *)
Definition of_Z (n : Z) : string := NilZero.string_of_int (Z.to_int n).

End PyStr.

(* ------------------------------------------------------------------------- *)
(** ** Python floats

    A float is an IEEE binary64 value: a NaN, an infinity, or
    [(-1)^neg * m * 2^e] with [0 <= m < 2^53] and [-1074 <= e <= 971], in the
    form where [m >= 2^52] unless [e = -1074].  [of_string] is [float(s)]
    for an ASCII string, [repr] is [repr(x)] (also [str(x)] and the empty
    format of an f-string) and [format_1f] is [format(x, '.1f')]. *)

Module PyFloat.
Import PyStr.

Inductive t : Type :=
| Nan
| Inf (neg : bool)
| Fin (neg : bool) (m e : Z).

Definition is_finite (x : t) : bool :=
  match x with Fin _ _ _ => true | _ => false end.

Definition eqb (x y : t) : bool :=
  match x, y with
  | Nan, Nan => true
  | Inf a, Inf b => Bool.eqb a b
  | Fin a m e, Fin b n f => Bool.eqb a b && (m =? n) && (e =? f)
  | _, _ => false
  end.

(** *** From a decimal to the nearest binary64 *)

(** [num / den] rounded to the nearest integer, ties to even. *)
Definition round_half_even (num den : Z) : Z :=
  let q := num / den in
  let r := num mod den in
  if 2 * r <? den then q
  else if den <? 2 * r then q + 1
  else if Z.even q then q else q + 1.

(** The binary64 nearest to [N / M], for [N, M > 0]. *)
Definition of_ratio (neg : bool) (N M : Z) : t :=
  let k := Z.log2 N - Z.log2 M in
  let above := if 0 <=? k then M * 2 ^ k <=? N else M <=? N * 2 ^ (- k) in
  let l := if above then k else k - 1 in
  let e := Z.max (l - 52) (-1074) in
  let q := if 0 <=? e then round_half_even N (M * 2 ^ e)
           else round_half_even (N * 2 ^ (- e)) M in
  let '(m, e') := if q =? 2 ^ 53 then (2 ^ 52, e + 1) else (q, e) in
  if 971 <? e' then Inf neg else Fin neg m e'.

(** The binary64 nearest to [D * 10^E], for [D >= 0]. *)
Definition of_decimal (neg : bool) (D E : Z) : t :=
  if D =? 0 then Fin neg 0 (-1074)
  else if 0 <=? E then of_ratio neg (D * 10 ^ E) 1
  else of_ratio neg D (10 ^ (- E)).

(** *** [float(s)] *)

Definition is_digit (c : ascii) : bool := (48 <=? code c) && (code c <=? 57).

(** The whitespace of the C locale, which [float] strips from an ASCII
    string. *)
Definition is_cspace (c : ascii) : bool :=
  ((9 <=? code c) && (code c <=? 13)) || (code c =? 32).

Fixpoint lstrip_c (s : string) : string :=
  match s with
  | EmptyString => EmptyString
  | String c s' => if is_cspace c then lstrip_c s' else s
  end.

Fixpoint rstrip_c (s : string) : string :=
  match s with
  | EmptyString => EmptyString
  | String c s' =>
      match rstrip_c s' with
      | EmptyString => if is_cspace c then EmptyString else String c EmptyString
      | r => String c r
      end
  end.

(** An underscore is accepted between two digits and dropped; anywhere else
    it makes the string invalid.  [prev] is the character before [s]. *)
Fixpoint drop_underscores (prev : ascii) (s : string) : option string :=
  match s with
  | EmptyString => if Ascii.eqb prev "_" then None else Some EmptyString
  | String c s' =>
      if Ascii.eqb c "_" then
        if is_digit prev then drop_underscores c s' else None
      else if Ascii.eqb prev "_" && negb (is_digit c) then None
      else option_map (String c) (drop_underscores c s')
  end.

(** A run of digits: the value so far, the number of digits read, the rest. *)
Fixpoint read_digits (s : string) (acc cnt : Z) : Z * Z * string :=
  match s with
  | EmptyString => (acc, cnt, EmptyString)
  | String c s' =>
      if is_digit c then read_digits s' (10 * acc + (code c - 48)) (cnt + 1)
      else (acc, cnt, s)
  end.

Definition read_sign (s : string) : bool * string :=
  match s with
  | String "-" s' => (true, s')
  | String "+" s' => (false, s')
  | _ => (false, s)
  end.

(** [s] without the prefix [p], compared without regard to case. *)
Fixpoint ci_strip (p s : string) : option string :=
  match p, s with
  | EmptyString, _ => Some s
  | String a p', String b s' =>
      if Ascii.eqb (upper_char a) (upper_char b) then ci_strip p' s' else None
  | String _ _, EmptyString => None
  end.

(** [inf], [infinity] and [nan], in any case. *)
Definition parse_special (neg : bool) (s : string) : option t :=
  match ci_strip "INF" s with
  | Some r =>
      if is_empty r then Some (Inf neg)
      else match ci_strip "INITY" r with
           | Some EmptyString => Some (Inf neg)
           | _ => None
           end
  | None =>
      match ci_strip "NAN" s with
      | Some EmptyString => Some Nan
      | _ => None
      end
  end.

(** Digits with an optional point and an optional exponent; at least one
    digit before or after the point, at least one in the exponent. *)
Definition parse_decimal (neg : bool) (s : string) : option t :=
  let '(ip, ni, r1) := read_digits s 0 0 in
  let '(D, nf, r2) :=
    match r1 with
    | String "." r => read_digits r ip 0
    | _ => (ip, 0, r1)
    end in
  if ni + nf =? 0 then None
  else match r2 with
       | EmptyString => Some (of_decimal neg D (- nf))
       | String c r3 =>
           if Ascii.eqb (upper_char c) "E" then
             let (eneg, r4) := read_sign r3 in
             let '(x, nx, r5) := read_digits r4 0 0 in
             if (nx =? 0) || negb (is_empty r5) then None
             else Some (of_decimal neg D ((if eneg then - x else x) - nf))
           else None
       end.

(** [float(s)]: [None] stands for the [ValueError] that [float] raises. *)
Definition of_string (s : string) : option t :=
  match drop_underscores zero s with
  | None => None
  | Some s1 =>
      let s2 := rstrip_c (lstrip_c s1) in
      if is_empty s2 then None
      else
        let (neg, body) := read_sign s2 in
        match parse_decimal neg body with
        | Some x => Some x
        | None => parse_special neg body
        end
  end.

(** *** [repr(x)] *)

(** [N / M * 10^s] as a fraction. *)
Definition scale10 (N M s : Z) : Z * Z :=
  if 0 <=? s then (N * 10 ^ s, M) else (N, M * 10 ^ (- s)).

(** [10^(p-1) <= N / M < 10^p]. *)
Definition in_decade (N M p : Z) : bool :=
  let (a, b) := scale10 N M (1 - p) in (b <=? a) && (a <? 10 * b).

(** The position of the decimal point: the [p] with
    [10^(p-1) <= N / M < 10^p], searched around the estimate that the binary
    logarithms give. *)
Definition decpt (N M : Z) : Z :=
  let k := Z.log2 N - Z.log2 M in
  let p0 := (k * 30103) / 100000 in
  match find (in_decade N M) [p0 - 1; p0; p0 + 1; p0 + 2; p0 + 3] with
  | Some p => p
  | None => p0
  end.

(** The [n]-digit decimal that reads back as [x = N / M], when there is one:
    of the two [n]-digit neighbours of [x] the nearer one that does. *)
Definition pick (x : t) (N M p n : Z) : option Z :=
  let s := n - p in
  let (a, b) := scale10 N M s in
  let lo := a / b in
  let r := a mod b in
  let ok c := eqb (of_decimal false c (- s)) x in
  match ok lo, ok (lo + 1) with
  | true, true =>
      Some (if 2 * r <? b then lo
            else if b <? 2 * r then lo + 1
            else if Z.even lo then lo else lo + 1)
  | true, false => Some lo
  | false, true => Some (lo + 1)
  | false, false => None
  end.

(** The shortest such decimal, from [n] digits up; seventeen always do. *)
Fixpoint shortest (fuel : nat) (x : t) (N M p n : Z) : Z * Z :=
  match fuel with
  | O => let (a, b) := scale10 N M (n - p) in (round_half_even a b, n)
  | S fuel' =>
      match pick x N M p n with
      | Some d => (d, n)
      | None => shortest fuel' x N M p (n + 1)
      end
  end.

Fixpoint zeros (n : nat) : string :=
  match n with O => EmptyString | S n' => String "0" (zeros n') end.

(** Drop the zeros at the end of a digit string. *)
Fixpoint rstrip_zeros (s : string) : string :=
  match s with
  | EmptyString => EmptyString
  | String c s' =>
      match rstrip_zeros s' with
      | EmptyString => if Ascii.eqb c "0" then EmptyString else String c EmptyString
      | r => String c r
      end
  end.

Definition len (s : string) : Z := Z.of_nat (String.length s).

(** The digits of a positive float and the position of its decimal point:
    the value is [0.d1d2... * 10^decpt]. *)
Definition digits_of (m e : Z) : string * Z :=
  let (N, M) := if 0 <=? e then (m * 2 ^ e, 1) else (m, 2 ^ (- e)) in
  let p := decpt N M in
  let (d, n) := shortest 16 (Fin false m e) N M p 1 in
  let ds := of_Z d in
  (rstrip_zeros ds, p + (len ds - n)).

(** The layout of [repr]: exponent notation when the decimal point is more
    than sixteen digits to the right or more than three zeros to the left,
    [.0] added to an integral value otherwise. *)
Definition layout (ds : string) (dp : Z) : string :=
  if (dp <=? -4) || (16 <? dp) then
    let ex := dp - 1 in
    let mant := match ds with
                | String c EmptyString => ds
                | String c r => String c ("." ++ r)
                | EmptyString => EmptyString
                end in
    let xs := of_Z (Z.abs ex) in
    mant ++ "e" ++ (if ex <? 0 then "-" else "+")
         ++ (if len xs <? 2 then "0" ++ xs else xs)
  else if dp <=? 0 then "0." ++ zeros (Z.to_nat (- dp)) ++ ds
  else if len ds <=? dp then ds ++ zeros (Z.to_nat (dp - len ds)) ++ ".0"
  else substring 0 (Z.to_nat dp) ds ++ "."
       ++ substring (Z.to_nat dp) (Z.to_nat (len ds - dp)) ds.

Definition repr (x : t) : string :=
  match x with
  | Nan => "nan"
  | Inf neg => if neg then "-inf" else "inf"
  | Fin neg m e =>
      (if neg then "-" else "")
        ++ (if m =? 0 then "0.0" else let (ds, dp) := digits_of m e in layout ds dp)
  end.

(** [format(x, '.1f')]: one digit after the point, the exact value rounded to
    the nearest tenth, ties to even. *)
Definition format_1f (x : t) : string :=
  match x with
  | Nan => "nan"
  | Inf neg => if neg then "-inf" else "inf"
  | Fin neg m e =>
      let q := if 0 <=? e then m * 2 ^ e * 10
               else round_half_even (m * 10) (2 ^ (- e)) in
      (if neg then "-" else "") ++ of_Z (q / 10) ++ "." ++ of_Z (q mod 10)
  end.

End PyFloat.

(* ------------------------------------------------------------------------- *)
(** ** Values and dictionaries *)

(** The values an option of the [argparse.Namespace] holds: [None], a flag, a
    number or a text. *)
Module PyVal.

Inductive t : Type :=
| VNone
| VBool (b : bool)
| VInt (n : Z)
| VFloat (x : PyFloat.t)
| VStr (s : string).

(** [str(v)], which is also what an f-string field with no format gives. *)
Definition str (v : t) : string :=
  match v with
  | VNone => "None"
  | VBool b => if b then "True" else "False"
  | VInt n => PyStr.of_Z n
  | VFloat x => PyFloat.repr x
  | VStr s => s
  end.

(** The truth value of [v] in a condition. *)
Definition truthy (v : t) : bool :=
  match v with
  | VNone => false
  | VBool b => b
  | VInt n => negb (n =? 0)
  | VFloat (PyFloat.Fin _ m _) => negb (m =? 0)
  | VFloat _ => true
  | VStr s => negb (PyStr.is_empty s)
  end.

End PyVal.

(** A [dict] with string keys: the items in insertion order, every key once. *)
Module PyDict.

Definition t (V : Type) : Type := list (string * V).

Fixpoint get {V} (k : string) (d : t V) : option V :=
  match d with
  | [] => None
  | (k', v) :: d' => if String.eqb k k' then Some v else get k d'
  end.

(** [d[k] = v]: a key that is present keeps its place, a new key goes to the
    end. *)
Fixpoint set {V} (k : string) (v : V) (d : t V) : t V :=
  match d with
  | [] => [(k, v)]
  | (k', v') :: d' =>
      if String.eqb k k' then (k', v) :: d' else (k', v') :: set k v d'
  end.

Definition keys {V} (d : t V) : list string := map fst d.

(** [{f(k): g(v) for k, v in items}]: the items are inserted one by one. *)
Definition of_items {V} (items : list (string * V)) : t V :=
  fold_left (fun d kv => set (fst kv) (snd kv) d) items [].

End PyDict.

(* ------------------------------------------------------------------------- *)
(** ** Exceptions and outcomes *)

(** The classes of exception the handlers tell apart. *)
Inductive exc_class : Type := ValueError | AttributeError | OtherException.

(** An exception: its class and [str(e)]. *)
Record exn : Type := mkExn { exc_cls : exc_class; exc_msg : string }.

(** A call returns a value or raises. *)
Inductive outcome (A : Type) : Type :=
| Ret (a : A)
| Raise (e : exn).
Arguments Ret {A} a.
Arguments Raise {A} e.

Definition is_value_error (e : exn) : bool :=
  match exc_cls e with ValueError => true | _ => false end.

(* ------------------------------------------------------------------------- *)
(** ** The collaborators

    The modem, the audio devices, the tone generator ([pydub]) and the file
    system are outside [command_server.py].  [W] is their joint state and the
    class lists what the server reads and calls: a read is a function of the
    state, a call returns or raises and leaves a new state. *)

Class Collaborators (W : Type) : Type := {
  (** [modem_tx.modem.modem_name], as an f-string prints it *)
  modem_name : W -> string;
  (** [modem_tx.modem.sample_rate] *)
  sample_rate : W -> Z;
  (** [modem_tx.set_mode(mode)] *)
  set_mode : string -> W -> outcome unit * W;
  (** [output_device.db = volume] *)
  set_db : PyFloat.t -> W -> outcome unit * W;
  (** the truth value of [output_device.ptt]; [None] when the device has no
      such attribute *)
  ptt : W -> option bool;
  (** the same for [output_device.inhibit] *)
  inhibit : W -> option bool;
  (** [output_device.write_raw(data)] *)
  write_raw : string -> W -> outcome unit * W;
  (** [output_device.clear()] *)
  clear : W -> outcome unit * W;
  (** [output_device.send_queue] and the assignment to it *)
  send_queue : W -> list string;
  set_send_queue : list string -> W -> W;
  (** [input_device.input_level] *)
  input_level : W -> outcome PyFloat.t;
  (** [pydub.generators.Sine(freq, sample_rate=, bit_depth=)
      .to_audio_segment(duration, volume=).raw_data], import included *)
  sine_raw : Z -> Z -> Z -> Z -> Z -> W -> outcome string;
  (** [str(Path.home())], after the two imports of [_cmd_save] *)
  home : W -> outcome string;
  (** [open(path, "w")]: the file is created, or emptied *)
  open_write : string -> W -> outcome unit * W;
  (** [configargparse.DefaultConfigFileParser().serialize(items)] *)
  config_serialize : PyDict.t string -> outcome string;
  (** [f.write(text)] and the end of the [with] block *)
  file_write : string -> string -> W -> outcome unit * W
}.

(** What a [CommandServer] holds: the collaborators, the options namespace
    and the names of the modes. *)
Record Server (W : Type) : Type := mkServer {
  devs : W;
  options : PyDict.t PyVal.t;
  valid_modes : list string
}.
Arguments mkServer {W} _ _ _.
Arguments devs {W} _.
Arguments options {W} _.
Arguments valid_modes {W} _.

(* ------------------------------------------------------------------------- *)
(** ** The monad of the handlers

    A handler runs on the server and returns or raises; what it changed
    before raising stays changed. *)

Module Run.
Section Monad.
Context {W : Type}.

Definition M (A : Type) : Type := Server W -> outcome A * Server W.

Definition ret {A} (a : A) : M A := fun s => (Ret a, s).

Definition raise {A} (e : exn) : M A := fun s => (Raise e, s).

Definition bind {A B} (m : M A) (f : A -> M B) : M B :=
  fun s =>
    match m s with
    | (Ret a, s') => f a s'
    | (Raise e, s') => (Raise e, s')
    end.

(** [try: m  except <class matching p> as e: h e]. *)
Definition try_except {A} (p : exn -> bool) (m : M A) (h : exn -> M A) : M A :=
  fun s =>
    match m s with
    | (Ret a, s') => (Ret a, s')
    | (Raise e, s') => if p e then h e s' else (Raise e, s')
    end.

(** A read and a call on the collaborators. *)
Definition read {A} (f : W -> A) : M A := fun s => (Ret (f (devs s)), s).

Definition call {A} (op : W -> outcome A * W) : M A :=
  fun s =>
    let (r, w) := op (devs s) in
    (r, mkServer w (options s) (valid_modes s)).

Definition update (f : W -> W) : M unit :=
  fun s => (Ret tt, mkServer (f (devs s)) (options s) (valid_modes s)).

(** A read that may raise. *)
Definition attempt {A} (f : W -> outcome A) : M A := fun s => (f (devs s), s).

(** A call that touches no state. *)
Definition lift {A} (o : outcome A) : M A := fun s => (o, s).

(** [self.options.<name>]. *)
Definition getopt (name : string) : M PyVal.t :=
  fun s =>
    match PyDict.get name (options s) with
    | Some v => (Ret v, s)
    | None =>
        (Raise (mkExn AttributeError
                  ("'Namespace' object has no attribute '" ++ name ++ "'")), s)
    end.

(** [self.options.<name> = v]. *)
Definition setopt (name : string) (v : PyVal.t) : M unit :=
  fun s =>
    (Ret tt, mkServer (devs s) (PyDict.set name v (options s)) (valid_modes s)).

End Monad.
Arguments M : clear implicits.
End Run.

Declare Scope run_scope.
Delimit Scope run_scope with run.
Notation "x <- m ;; k" := (Run.bind m (fun x => k))
  (at level 61, m at next level, right associativity) : run_scope.
Notation "m ;; k" := (Run.bind m (fun _ => k))
  (at level 61, right associativity) : run_scope.

(* ------------------------------------------------------------------------- *)
(** ** Paths

    [pathlib] on a POSIX system: a path is its root and its parts, and its
    text is the root followed by the parts with a slash between them. *)

Module PyPath.

(** The pieces of [path] between its slashes, [cur] being the piece read so
    far. *)
Fixpoint pieces (cur path : string) : list string :=
  match path with
  | EmptyString => [cur]
  | String c rest =>
      if Ascii.eqb c "/"%char then cur :: pieces EmptyString rest
      else pieces (cur ++ String c EmptyString) rest
  end.

(** The root: one slash, or two when the path begins with exactly two. *)
Definition root (path : string) : string :=
  if PyStr.starts_with "///" path then "/"
  else if PyStr.starts_with "//" path then "//"
  else if PyStr.starts_with "/" path then "/"
  else "".

(** The parts: the pieces that are neither empty nor a single dot. *)
Definition parts (path : string) : list string :=
  filter (fun x => negb (PyStr.is_empty x) && negb (String.eqb x "."))
         (pieces EmptyString path).

(** [str(PurePosixPath(path) / name)] for a [name] that has no root, when
    one part at least is left. *)
Definition child (path name : string) : string :=
  root path ++ PyStr.join "/" (parts path ++ parts name).

End PyPath.

(* ------------------------------------------------------------------------- *)
(** ** The handlers and the dispatcher *)

Section CommandServer.
Context {W : Type} {C : Collaborators W}.
Import Run PyStr PyVal.
Local Open Scope run_scope.

(** [MODE]: the query, the refusal of a name that is not a mode, the change. *)
Definition _cmd_mode (arg : string) : M W string :=
  if is_empty arg then
    name <- read modem_name ;;
    ret ("OK MODE " ++ name)
  else
    let mode := upper arg in
    fun s =>
      if negb (mem mode (valid_modes s)) then
        ret ("ERROR Invalid mode. Valid: " ++ join ", " (valid_modes s)) s
      else
        (call (set_mode mode) ;;
         setopt "mode" (VStr mode) ;;
         ret ("OK MODE " ++ mode)) s.

(** [float(arg)], raising [ValueError] on a string that is not a float. *)
Definition float_of (arg : string) : M W PyFloat.t :=
  match PyFloat.of_string arg with
  | Some x => ret x
  | None =>
      raise (mkExn ValueError ("could not convert string to float: " ++ arg))
  end.

(** [VOLUME]: the [ValueError] caught is that of [float] and of anything else
    in the [try] block. *)
Definition _cmd_volume (arg : string) : M W string :=
  if is_empty arg then
    v <- getopt "output_volume" ;;
    ret ("OK VOLUME " ++ str v)
  else
    try_except is_value_error
      (volume <- float_of arg ;;
       call (set_db volume) ;;
       setopt "output_volume" (VFloat volume) ;;
       ret ("OK VOLUME " ++ PyFloat.repr volume))
      (fun _ => ret "ERROR Invalid volume (must be number in dB)").

(** [FOLLOW]. *)
Definition _cmd_follow (arg : string) : M W string :=
  if is_empty arg then
    v <- getopt "follow" ;;
    ret ("OK FOLLOW " ++ (if truthy v then "ON" else "OFF"))
  else
    let arg := upper arg in
    if String.eqb arg "ON" then
      setopt "follow" (VBool true) ;;
      ret "OK FOLLOW ON"
    else if String.eqb arg "OFF" then
      setopt "follow" (VBool false) ;;
      ret "OK FOLLOW OFF"
    else ret "ERROR Invalid follow state. Use: ON or OFF".

(** [getattr(output_device, name, False)] in a condition. *)
Definition flag (attr : W -> option bool) : M W bool :=
  read (fun w => match attr w with Some b => b | None => false end).

(** [STATUS]. *)
Definition _cmd_status : M W string :=
  mode <- read modem_name ;;
  volume <- getopt "output_volume" ;;
  f <- getopt "follow" ;;
  let follow := if truthy f then "ON" else "OFF" in
  p <- flag ptt ;;
  let ptt := if p then "ON" else "OFF" in
  i <- flag inhibit ;;
  let channel := if i then "BUSY" else "CLEAR" in
  ret ("OK STATUS MODE=" ++ mode ++ " VOLUME=" ++ str volume
        ++ " FOLLOW=" ++ follow ++ " PTT=" ++ ptt ++ " CHANNEL=" ++ channel).

Definition any_exception (e : exn) : bool := true.

(** [LEVELS]. *)
Definition _cmd_levels : M W string :=
  try_except any_exception
    (rx_level <- attempt input_level ;;
     ret ("OK LEVELS RX=" ++ PyFloat.format_1f rx_level))
    (fun e => ret ("ERROR Could not read levels: " ++ exc_msg e)).

(** [PTT TEST]: two seconds of a 440 Hz tone at -6 dB, 16 bits, written to
    the output device. *)
Definition _cmd_ptt_test : M W string :=
  try_except any_exception
    (rate <- read sample_rate ;;
     raw_data <- attempt (sine_raw 440 rate 16 2000 (-6)) ;;
     call (write_raw raw_data) ;;
     ret "OK PTT TEST started")
    (fun e => ret ("ERROR PTT test failed: " ++ exc_msg e)).

(** [CLEAR]: the device's own [clear], then the queue emptied (under the
    lock, which one thread alone always gets). *)
Definition _cmd_clear : M W string :=
  try_except any_exception
    (call clear ;;
     update (set_send_queue []) ;;
     ret "OK CLEAR")
    (fun e => ret ("ERROR Clear failed: " ++ exc_msg e)).

(** [str(home / ".freedvtnc2.conf")]. *)
Definition config_path (home_dir : string) : string :=
  PyPath.child home_dir ".freedvtnc2.conf".

(** [str(value) if value is not None else ""]. *)
Definition save_value (v : PyVal.t) : string :=
  match v with VNone => "" | _ => str v end.

(** The dictionary that [SAVE] builds from [vars(self.options)]. *)
Definition save_items (opts : PyDict.t PyVal.t) : PyDict.t string :=
  PyDict.of_items
    (map (fun kv => (hyphenate (fst kv), save_value (snd kv)))
         (filter (fun kv => negb (String.eqb (fst kv) "c")) opts)).

(** [SAVE]: the file is opened, then the dictionary is built and serialized,
    then the text is written. *)
Definition _cmd_save : M W string :=
  try_except any_exception
    (h <- attempt home ;;
     let path := config_path h in
     call (open_write path) ;;
     fun s =>
       (text <- lift (config_serialize (save_items (options s))) ;;
        call (file_write path text) ;;
        ret ("OK SAVE " ++ path)) s)
    (fun e => ret ("ERROR Save failed: " ++ exc_msg e)).

(** The chain of comparisons on the verb. *)
Definition dispatch (cmd arg : string) : M W string :=
  if String.eqb cmd "PING" then ret "OK PONG"
  else if String.eqb cmd "MODE" then _cmd_mode arg
  else if String.eqb cmd "VOLUME" then _cmd_volume arg
  else if String.eqb cmd "FOLLOW" then _cmd_follow arg
  else if String.eqb cmd "STATUS" then _cmd_status
  else if String.eqb cmd "LEVELS" then _cmd_levels
  else if String.eqb cmd "PTT" then
    if String.eqb arg "TEST" then _cmd_ptt_test
    else ret "ERROR Unknown PTT command. Use: PTT TEST"
  else if String.eqb cmd "CLEAR" then _cmd_clear
  else if String.eqb cmd "SAVE" then _cmd_save
  else ret ("ERROR Unknown command: " ++ cmd).

(** The verb and the argument of a line: [parts[0]] and [parts[1]], or the
    empty string for a missing argument. *)
Definition verb_arg (parts : list string) : option (string * string) :=
  match parts with
  | [] => None
  | cmd :: rest => Some (cmd, match rest with a :: _ => a | [] => "" end)
  end.

(** [_process_command]: the line is uppercased as a whole and split; the
    handler runs inside [try ... except Exception]. *)
Definition _process_command (command : string) : M W string :=
  match verb_arg (split1 (upper command)) with
  | None => ret "ERROR Empty command"
  | Some (cmd, arg) =>
      try_except any_exception
        (dispatch cmd arg)
        (fun e => ret ("ERROR " ++ exc_msg e))
  end.

End CommandServer.

(* ------------------------------------------------------------------------- *)
(** ** A reference rig

    One implementation of the collaborators, to run the server on: a modem
    that takes any mode, an output device with a gain, a queue and a buffer
    of its own, an input level, and a file system.  With [rig_fault] set,
    every call on the rig raises that exception. *)

Module Rig.

Record t : Type := mk {
  rig_mode : string;
  rig_rate : Z;
  rig_db : PyFloat.t;
  rig_ptt : option bool;
  rig_inhibit : option bool;
  rig_buffer : list string;
  rig_queue : list string;
  rig_played : list string;
  rig_level : PyFloat.t;
  rig_home : string;
  rig_files : PyDict.t string;
  rig_fault : option exn
}.

Definition guarded (f : t -> t) (w : t) : outcome unit * t :=
  match rig_fault w with
  | Some e => (Raise e, w)
  | None => (Ret tt, f w)
  end.

Definition guarded_read {A} (f : t -> A) (w : t) : outcome A :=
  match rig_fault w with
  | Some e => Raise e
  | None => Ret (f w)
  end.

Definition with_mode (m : string) (w : t) : t :=
  mk m (rig_rate w) (rig_db w) (rig_ptt w) (rig_inhibit w) (rig_buffer w)
     (rig_queue w) (rig_played w) (rig_level w) (rig_home w) (rig_files w)
     (rig_fault w).

Definition with_db (x : PyFloat.t) (w : t) : t :=
  mk (rig_mode w) (rig_rate w) x (rig_ptt w) (rig_inhibit w) (rig_buffer w)
     (rig_queue w) (rig_played w) (rig_level w) (rig_home w) (rig_files w)
     (rig_fault w).

Definition with_buffer (b : list string) (w : t) : t :=
  mk (rig_mode w) (rig_rate w) (rig_db w) (rig_ptt w) (rig_inhibit w) b
     (rig_queue w) (rig_played w) (rig_level w) (rig_home w) (rig_files w)
     (rig_fault w).

Definition with_queue (q : list string) (w : t) : t :=
  mk (rig_mode w) (rig_rate w) (rig_db w) (rig_ptt w) (rig_inhibit w)
     (rig_buffer w) q (rig_played w) (rig_level w) (rig_home w) (rig_files w)
     (rig_fault w).

Definition with_played (d : string) (w : t) : t :=
  mk (rig_mode w) (rig_rate w) (rig_db w) (rig_ptt w) (rig_inhibit w)
     (rig_buffer w) (rig_queue w) (rig_played w ++ [d]) (rig_level w)
     (rig_home w) (rig_files w) (rig_fault w).

(** The text of a configuration file: a line [key = value] for each item. *)
Definition config_text (items : PyDict.t string) : string :=
  String.concat ""
    (map (fun kv => fst kv ++ " = " ++ snd kv ++ String "010" "") items).

Definition with_file (path text : string) (w : t) : t :=
  mk (rig_mode w) (rig_rate w) (rig_db w) (rig_ptt w) (rig_inhibit w)
     (rig_buffer w) (rig_queue w) (rig_played w) (rig_level w) (rig_home w)
     (PyDict.set path text (rig_files w)) (rig_fault w).

#[global] Instance collaborators : Collaborators t := {
  modem_name := rig_mode;
  sample_rate := rig_rate;
  set_mode m := guarded (with_mode m);
  set_db x := guarded (with_db x);
  ptt := rig_ptt;
  inhibit := rig_inhibit;
  write_raw d := guarded (with_played d);
  clear := guarded (with_buffer []);
  send_queue := rig_queue;
  set_send_queue := with_queue;
  input_level := guarded_read rig_level;
  sine_raw freq rate depth ms vol := guarded_read (fun _ => "<sine>");
  home := guarded_read rig_home;
  open_write path := guarded (with_file path "");
  config_serialize items := Ret (config_text items);
  file_write path text := guarded (with_file path text)
}.

(** A rig at rest. *)
Definition idle : t :=
  mk "DATAC1" 8000 (PyFloat.Fin false 0 (-1074)) None None
     ["frame0"] ["frame1"; "frame2"] [] (PyFloat.Fin true 5764607523034235 (-48))
     "/home/op" [] None.

(** The server on the idle rig, with the options of a fresh start. *)
Definition server : Server t :=
  mkServer idle
    [("c", PyVal.VNone); ("mode", PyVal.VStr "DATAC1");
     ("output_volume", PyVal.VInt 0); ("follow", PyVal.VBool false);
     ("input_device", PyVal.VNone); ("kiss_tcp_port", PyVal.VInt 8001)]
    ["DATAC1"; "DATAC3"; "DATAC4"].

(** The same server on a rig whose every call fails. *)
Definition broken : Server t :=
  mkServer
    (mk "DATAC1" 8000 (PyFloat.Fin false 0 (-1074)) None None [] [] []
        (PyFloat.Fin false 0 (-1074)) "/home/op" []
        (Some (mkExn OtherException "modem not responding")))
    (options server) (valid_modes server).

End Rig.

(* ------------------------------------------------------------------------- *)
(** ** [_cmd_clear] next to another thread

    Each connection has a thread of its own, and the audio side runs in
    others.  [_cmd_clear] is cut into its steps: the call of
    [output_device.clear()], the entry of [with send_queue_lock], the
    assignment [send_queue = []], the exit of the [with] block.  The peer is
    any thread that uses the queue under its lock: it takes the lock, looks at
    the device or appends a frame, and gives the lock back.  A schedule says
    which thread moves next; a thread that waits for the lock cannot move. *)

Module Interleave.

Inductive thread : Type := Clearer | Peer.

(** Where the thread in [_cmd_clear] stands. *)
Inductive pc : Type :=
| AtClear                      (* before output_device.clear() *)
| AtAcquire                    (* clear() is back; the lock is not yet taken *)
| AtEmpty                      (* inside the with block, before the assignment *)
| AtRelease                    (* the queue is assigned; still inside *)
| Returned (response : string).

Inductive peer_pc : Type := Outside | Inside.

Record config (W : Type) : Type := mkConfig {
  world : W;
  lock : option thread;
  clearer : pc;
  peer : peer_pc;
  (** what the peer saw, and where the clearer stood at that time *)
  seen : list (W * pc)
}.
Arguments mkConfig {W} _ _ _ _ _.
Arguments world {W} _.
Arguments lock {W} _.
Arguments clearer {W} _.
Arguments peer {W} _.
Arguments seen {W} _.

Inductive action : Type :=
| ClearerStep
| PeerAcquire
| PeerObserve
| PeerPush (frame : string)
| PeerRelease.

Section Steps.
Context {W : Type} {C : Collaborators W}.

Definition start (w : W) : config W := mkConfig w None AtClear Outside [].

(** The next step of [_cmd_clear]; [None] when it waits or has returned. *)
Definition clearer_step (c : config W) : option (config W) :=
  match clearer c with
  | AtClear =>
      match clear (world c) with
      | (Ret _, w') => Some (mkConfig w' (lock c) AtAcquire (peer c) (seen c))
      | (Raise e, w') =>
          Some (mkConfig w' (lock c)
                  (Returned ("ERROR Clear failed: " ++ exc_msg e))
                  (peer c) (seen c))
      end
  | AtAcquire =>
      match lock c with
      | None => Some (mkConfig (world c) (Some Clearer) AtEmpty (peer c) (seen c))
      | Some _ => None
      end
  | AtEmpty =>
      Some (mkConfig (set_send_queue [] (world c)) (lock c) AtRelease
              (peer c) (seen c))
  | AtRelease =>
      Some (mkConfig (world c) None (Returned "OK CLEAR") (peer c) (seen c))
  | Returned _ => None
  end.

Definition step (a : action) (c : config W) : option (config W) :=
  match a with
  | ClearerStep => clearer_step c
  | PeerAcquire =>
      match peer c, lock c with
      | Outside, None =>
          Some (mkConfig (world c) (Some Peer) (clearer c) Inside (seen c))
      | _, _ => None
      end
  | PeerObserve =>
      match peer c with
      | Inside =>
          Some (mkConfig (world c) (lock c) (clearer c) Inside
                  (seen c ++ [(world c, clearer c)]))
      | Outside => None
      end
  | PeerPush frame =>
      match peer c with
      | Inside =>
          Some (mkConfig
                  (set_send_queue (send_queue (world c) ++ [frame]) (world c))
                  (lock c) (clearer c) Inside (seen c))
      | Outside => None
      end
  | PeerRelease =>
      match peer c with
      | Inside => Some (mkConfig (world c) None (clearer c) Outside (seen c))
      | Outside => None
      end
  end.

(** A schedule, run from [c]; [None] when it asks a thread to move that
    cannot. *)
Fixpoint run (schedule : list action) (c : config W) : option (config W) :=
  match schedule with
  | [] => Some c
  | a :: rest =>
      match step a c with
      | Some c' => run rest c'
      | None => None
      end
  end.

(** The clearer is past the device's [clear] and the queue is not yet
    assigned. *)
Definition between (p : pc) : bool :=
  match p with AtAcquire | AtEmpty => true | _ => false end.

(** The clearer is inside the [with] block. *)
Definition in_with_block (p : pc) : bool :=
  match p with AtEmpty | AtRelease => true | _ => false end.

(** Who holds the lock follows from where the two threads stand, and the peer
    never looked while the clearer was inside its [with] block. *)
Definition lock_discipline (c : config W) : Prop :=
  (lock c = Some Clearer <-> in_with_block (clearer c) = true)
  /\ (lock c = Some Peer <-> peer c = Inside)
  /\ Forall (fun o => in_with_block (snd o) = false) (seen c).

End Steps.
End Interleave.

(* ------------------------------------------------------------------------- *)
(** ** Predicates of the statements *)

(** A response line: it begins with [OK] or with [ERROR]. *)
Definition well_formed (r : string) : bool :=
  PyStr.starts_with "OK" r || PyStr.starts_with "ERROR" r.

Fixpoint all_space (s : string) : bool :=
  match s with
  | EmptyString => true
  | String c s' => PyStr.is_space c && all_space s'
  end.

Fixpoint no_space (s : string) : bool :=
  match s with
  | EmptyString => true
  | String c s' => negb (PyStr.is_space c) && no_space s'
  end.

(** A word: not empty and free of whitespace. *)
Definition is_word (s : string) : bool := negb (PyStr.is_empty s) && no_space s.

(** A text that begins with a character that is not whitespace. *)
Definition begins_word (s : string) : bool :=
  match s with
  | EmptyString => false
  | String c _ => negb (PyStr.is_space c)
  end.

(** The verbs the dispatcher knows. *)
Definition verbs : list string :=
  ["PING"; "MODE"; "VOLUME"; "FOLLOW"; "STATUS"; "LEVELS"; "PTT"; "CLEAR"; "SAVE"].



(** The same in the words of the statement, written apart from the handler:
    the key is the option's name character for character, with a hyphen where
    the name has an underscore; the value is the empty text for [None], and
    for anything else what [str] gives: [True] or [False], the decimal digits
    of an integer, the [repr] of a float, a string as it is. *)
Module Written.

Definition key_char (c : ascii) : ascii :=
  match N_of_ascii c with
  | 95%N => "-"%char
  | _ => c
  end.

Definition key (name : string) : string :=
  string_of_list_ascii (map key_char (list_ascii_of_string name)).



End Written.

(* ------------------------------------------------------------------------- *)
(** ** One connection

    [_handle_connection] reads from the socket, keeps what it has read in a
    buffer, and answers every complete line.  One connection is followed
    here; the other threads do not touch the server meanwhile. *)

Module Link.

(** What the thread of one connection calls and reads; [K] is the state of
    the socket and of whatever else the thread observes. *)
Class Connection (K : Type) : Type := {
  (** [self.running], as this thread reads it *)
  running : K -> bool;
  (** [conn.settimeout(None)] *)
  settimeout : K -> outcome unit * K;
  (** [conn.recv(1024)]; the empty string is the end of the stream *)
  recv : K -> outcome string * K;
  (** [data.decode('utf-8', errors='ignore')] *)
  decode : string -> string;
  (** [conn.send(text.encode('utf-8'))] *)
  send : string -> K -> outcome unit * K;
  (** [conn.close()] *)
  close : K -> outcome unit * K
}.

(** [s.rstrip()] and [s.strip()]. *)
Fixpoint rstrip (s : string) : string :=
  match s with
  | EmptyString => EmptyString
  | String c s' =>
      match rstrip s' with
      | EmptyString =>
          if PyStr.is_space c then EmptyString else String c EmptyString
      | r => String c r
      end
  end.

Definition strip (s : string) : string := rstrip (PyStr.lstrip s).

(** The line feed. *)
Definition newline : ascii := "010"%char.

(** [buffer.split('\n', 1)] when there is a line feed in [buffer]: the text
    before the first one and the text after it. *)
Fixpoint cut (buffer : string) : option (string * string) :=
  match buffer with
  | EmptyString => None
  | String c rest =>
      if Ascii.eqb c newline then Some (EmptyString, rest)
      else match cut rest with
           | Some (line, rest') => Some (String c line, rest')
           | None => None
           end
  end.

(** Why the loop of a connection ended: the flag was down, the peer closed,
    or a call raised. *)
Inductive ending : Type := Stopped | PeerClosed | Failed (e : exn).

Section Handler.
Context {W : Type} {C : Collaborators W} {K : Type} {L : Connection K}.

(** The body of the inner loop for one line: the line is stripped, an empty
    line is passed over, any other is dispatched and its response sent with a
    line feed. *)
Definition respond (line : string) (s : Server W) (k : K)
  : outcome unit * Server W * K :=
  let line := strip line in
  if PyStr.is_empty line then (Ret tt, s, k)
  else
    match _process_command line s with
    | (Ret response, s') =>
        let (r, k') := send (response ++ String newline "") k in (r, s', k')
    | (Raise e, s') => (Raise e, s', k)
    end.

(** [while '\n' in buffer: ...], for at most [fuel] lines. *)
Fixpoint drain_loop (fuel : nat) (buffer : string) (s : Server W) (k : K)
  : outcome string * Server W * K :=
  match cut buffer with
  | None => (Ret buffer, s, k)
  | Some (line, rest) =>
      match fuel with
      | O => (Ret buffer, s, k)
      | S fuel' =>
          match respond line s k with
          | (Ret _, s', k') => drain_loop fuel' rest s' k'
          | (Raise e, s', k') => (Raise e, s', k')
          end
      end
  end.

(** The inner loop: a buffer has fewer line feeds than characters. *)
Definition drain (buffer : string) : Server W -> K -> outcome string * Server W * K :=
  drain_loop (String.length buffer) buffer.

(** [while self.running: ...], for at most [fuel] reads; [None] when the
    loop is still going after them. *)
Fixpoint serve (fuel : nat) (buffer : string) (s : Server W) (k : K)
  : option ending * string * Server W * K :=
  match fuel with
  | O => (None, buffer, s, k)
  | S fuel' =>
      if negb (running k) then (Some Stopped, buffer, s, k)
      else
        match recv k with
        | (Raise e, k1) => (Some (Failed e), buffer, s, k1)
        | (Ret data, k1) =>
            if PyStr.is_empty data then (Some PeerClosed, buffer, s, k1)
            else
              match drain (buffer ++ decode data) s k1 with
              | (Ret buffer', s', k2) => serve fuel' buffer' s' k2
              | (Raise e, s', k2) => (Some (Failed e), buffer ++ decode data, s', k2)
              end
        end
  end.

(** [_handle_connection]: the timeout is lifted outside the [try]; whatever
    ends the loop, the socket is closed, and an error of [close] is dropped. *)
Definition _handle_connection (fuel : nat) (s : Server W) (k : K)
  : option (outcome unit) * Server W * K :=
  match settimeout k with
  | (Raise e, k0) => (Some (Raise e), s, k0)
  | (Ret _, k0) =>
      match serve fuel "" s k0 with
      | (None, _, s', k1) => (None, s', k1)
      | (Some _, _, s', k1) =>
          let (_, k2) := close k1 in (Some (Ret tt), s', k2)
      end
  end.

End Handler.
End Link.

(** [bytes.decode('utf-8', errors='ignore')], the text being kept as the
    bytes of its encoding: the well-formed sequences of one to four bytes are
    kept, and every byte that begins none is dropped.  (The decoder skips an
    ill-formed run up to the first byte that cannot continue it; the bytes it
    skips after the first are continuation bytes, which begin no sequence, so
    dropping byte by byte gives the same text.)  A sequence cut short by the
    end of the data is dropped too. *)
Module Utf8.

Definition within (lo hi : Z) (c : ascii) : bool :=
  (lo <=? PyStr.code c) && (PyStr.code c <=? hi).

(** A continuation byte, 80..BF. *)
Definition cont (c : ascii) : bool := within 128 191 c.

(** C2..DF 80..BF. *)
Definition two (a b : ascii) : bool := within 194 223 a && cont b.

(** E0 A0..BF, E1..EC 80..BF, ED 80..9F, EE..EF 80..BF, then 80..BF. *)
Definition three (a b c : ascii) : bool :=
  (((PyStr.code a =? 224) && within 160 191 b)
   || (within 225 236 a && cont b)
   || ((PyStr.code a =? 237) && within 128 159 b)
   || (within 238 239 a && cont b))
  && cont c.

(** F0 90..BF, F1..F3 80..BF, F4 80..8F, then 80..BF twice. *)
Definition four (a b c d : ascii) : bool :=
  (((PyStr.code a =? 240) && within 144 191 b)
   || (within 241 243 a && cont b)
   || ((PyStr.code a =? 244) && within 128 143 b))
  && cont c && cont d.

Fixpoint decode (data : string) : string :=
  match data with
  | EmptyString => EmptyString
  | String a r =>
      if PyStr.code a <? 128 then String a (decode r)
      else
        match r with
        | EmptyString => EmptyString
        | String b r2 =>
            if two a b then String a (String b (decode r2))
            else
              match r2 with
              | EmptyString => decode r
              | String c r3 =>
                  if three a b c then String a (String b (String c (decode r3)))
                  else
                    match r3 with
                    | EmptyString => decode r
                    | String d r4 =>
                        if four a b c d
                        then String a (String b (String c (String d (decode r4))))
                        else decode r
                    end
              end
        end
  end.

(** Every byte is below 128. *)
Fixpoint is_ascii (data : string) : bool :=
  match data with
  | EmptyString => true
  | String a r => (PyStr.code a <? 128) && is_ascii r
  end.

End Utf8.

(** A socket with a script: the chunks that [recv] will return, then the end
    of the stream; what was sent; with [send_fault] set, every [send]
    raises. *)
Module Wire.

Record t : Type := mk {
  inbox : list (outcome string);
  outbox : list string;
  closed : bool;
  up : bool;
  send_fault : option exn
}.

Definition wire_recv (k : t) : outcome string * t :=
  match inbox k with
  | [] => (Ret "", k)
  | d :: rest => (d, mk rest (outbox k) (closed k) (up k) (send_fault k))
  end.

Definition wire_send (d : string) (k : t) : outcome unit * t :=
  match send_fault k with
  | Some e => (Raise e, k)
  | None => (Ret tt, mk (inbox k) (outbox k ++ [d]) (closed k) (up k) (send_fault k))
  end.

Definition wire_close (k : t) : outcome unit * t :=
  (Ret tt, mk (inbox k) (outbox k) true (up k) (send_fault k)).

#[global] Instance connection : Link.Connection t := {
  Link.running := up;
  Link.settimeout k := (Ret tt, k);
  Link.recv := wire_recv;
  Link.decode := Utf8.decode;
  Link.send := wire_send;
  Link.close := wire_close
}.

(** A socket on which the client sends [chunks] and closes. *)
Definition fresh (chunks : list string) : t :=
  mk (map Ret chunks) [] false true None.

End Wire.

(* ------------------------------------------------------------------------- *)
(** ** The listener

    [start], [stop] and [_server_loop], the last one followed on its own
    thread; [stop] comes from another thread, between two of its steps. *)

Module Life.

(** How one call of [server_socket.accept()] ends. *)
Inductive accepted : Type :=
| Accepted (conn : nat)        (* a client has connected *)
| TimedOut                     (* socket.timeout, after the poll interval *)
| AcceptFailed (e : exn)       (* any other exception *)
| StopCalled.                  (* stop() ran in another thread meanwhile: the
                                  flag is down, the socket closed, accept raises *)

(** What the listener calls; [N] is the state of the network side. *)
Class Network (N : Type) : Type := {
  (** [socket.socket(AF_INET, SOCK_STREAM)] *)
  create : N -> outcome unit * N;
  (** [setsockopt], [bind((address, port))], [listen(5)], [settimeout(1.0)] *)
  listen : string -> Z -> N -> outcome unit * N;
  (** [server_socket.accept()] *)
  accept : N -> accepted * N;
  (** the handler thread of a connection, created and started *)
  spawn : nat -> N -> outcome unit * N;
  (** [server_socket.close()] *)
  close : N -> outcome unit * N
}.

(** The fields of the server that [start], [stop] and [_server_loop] use;
    [started] counts the threads that [start] has started. *)
Record t (N : Type) : Type := mk {
  running : bool;
  has_socket : bool;
  address : string;
  port : Z;
  started : nat;
  net : N
}.
Arguments mk {N} _ _ _ _ _ _.
Arguments running {N} _.
Arguments has_socket {N} _.
Arguments address {N} _.
Arguments port {N} _.
Arguments started {N} _.
Arguments net {N} _.

Section Server.
Context {N : Type} {Net : Network N}.

Definition with_net (n : N) (st : t N) : t N :=
  mk (running st) (has_socket st) (address st) (port st) (started st) n.

(** [start]: nothing when the server runs already. *)
Definition start (st : t N) : t N :=
  if running st then st
  else mk true (has_socket st) (address st) (port st) (S (started st)) (net st).

(** [if self.server_socket: try: close() except: pass]. *)
Definition close_quietly (st : t N) : t N :=
  if has_socket st then with_net (snd (close (net st))) st else st.

(** [stop]. *)
Definition stop (st : t N) : t N :=
  close_quietly
    (mk false (has_socket st) (address st) (port st) (started st) (net st)).

(** [while self.running: ...], for at most [fuel] calls of [accept]; the
    boolean says whether the loop has ended.  A timeout, a failed [accept] and
    a handler that could not be started all lead to the next round. *)
Fixpoint accept_loop (fuel : nat) (st : t N) : bool * t N :=
  match fuel with
  | O => (false, st)
  | S fuel' =>
      if negb (running st) then (true, st)
      else
        match accept (net st) with
        | (Accepted conn, n) =>
            accept_loop fuel' (with_net (snd (spawn conn n)) st)
        | (TimedOut, n) => accept_loop fuel' (with_net n st)
        | (AcceptFailed _, n) => accept_loop fuel' (with_net n st)
        | (StopCalled, n) => accept_loop fuel' (stop (with_net n st))
        end
  end.

(** [_server_loop]: the socket is made and set up, the loop runs, and
    whatever happened the socket is closed in the end. *)
Definition _server_loop (fuel : nat) (st : t N) : bool * t N :=
  match create (net st) with
  | (Raise _, n) => (true, close_quietly (with_net n st))
  | (Ret _, n) =>
      let st1 := mk (running st) true (address st) (port st) (started st) n in
      match listen (address st) (port st) n with
      | (Raise _, n1) => (true, close_quietly (with_net n1 st1))
      | (Ret _, n1) =>
          let (ended, st2) := accept_loop fuel (with_net n1 st1) in
          if ended then (true, close_quietly st2) else (false, st2)
      end
  end.

End Server.
End Life.

(** A network side with a script: what the calls of [accept] will return (a
    timeout once the script is over), the connections given to a handler, and
    a [bind] that fails when [bind_error] is set. *)
Module Port.

Record t : Type := mk {
  backlog : list Life.accepted;
  handled : list nat;
  listening : bool;
  closes : nat;
  bind_error : option exn
}.

Definition port_listen (address : string) (port : Z) (n : t) : outcome unit * t :=
  match bind_error n with
  | Some e => (Raise e, n)
  | None => (Ret tt, mk (backlog n) (handled n) true (closes n) None)
  end.

Definition port_accept (n : t) : Life.accepted * t :=
  match backlog n with
  | [] => (Life.TimedOut, n)
  | a :: rest =>
      (a, mk rest (handled n) (listening n) (closes n) (bind_error n))
  end.

Definition port_spawn (conn : nat) (n : t) : outcome unit * t :=
  (Ret tt, mk (backlog n) (handled n ++ [conn]) (listening n) (closes n) (bind_error n)).

Definition port_close (n : t) : outcome unit * t :=
  (Ret tt, mk (backlog n) (handled n) false (S (closes n)) (bind_error n)).

#[global] Instance network : Life.Network t := {
  Life.create n := (Ret tt, n);
  Life.listen := port_listen;
  Life.accept := port_accept;
  Life.spawn := port_spawn;
  Life.close := port_close
}.

(** A server that has not been started, in front of the script. *)
Definition fresh (ticks : list Life.accepted) : Life.t t :=
  Life.mk false false "0.0.0.0" 8002 0 (mk ticks [] false 0 None).

(** The connections of a script. *)
Fixpoint connections (ticks : list Life.accepted) : list nat :=
  match ticks with
  | [] => []
  | Life.Accepted conn :: rest => conn :: connections rest
  | _ :: rest => connections rest
  end.

Definition is_stop (a : Life.accepted) : bool :=
  match a with Life.StopCalled => true | _ => false end.

End Port.

(* ------------------------------------------------------------------------- *)
(** ** More predicates of the statements *)

(** The lines that only ask: [PING], [STATUS], [LEVELS], a [MODE], [VOLUME]
    or [FOLLOW] without argument, a [PTT] that is not [PTT TEST], and every
    verb that is not known. *)
Definition is_query (cmd arg : string) : bool :=
  PyStr.mem cmd ["PING"; "STATUS"; "LEVELS"]
  || (PyStr.mem cmd ["MODE"; "VOLUME"; "FOLLOW"] && PyStr.is_empty arg)
  || (String.eqb cmd "PTT" && negb (String.eqb arg "TEST"))
  || negb (PyStr.mem cmd verbs).

(** The queue is empty while the clearer is about to leave its [with]
    block. *)
Definition queue_guarded {W : Type} {C : Collaborators W}
  (c : Interleave.config W) : Prop :=
  Interleave.clearer c = Interleave.AtRelease ->
  send_queue (Interleave.world c) = [].

(* ------------------------------------------------------------------------- *)
(** ** Tactics *)

(** A conjunction of closed equations, each by evaluation. *)
Ltac by_evaluation :=
  repeat match goal with |- _ /\ _ => split end; vm_compute; reflexivity.

(** A fact about one character, by trying them all. *)
Ltac by_char c := destruct c as [[] [] [] [] [] [] [] []]; reflexivity.

(** One case split on the next test of a run that is known to end in a given
    way. *)
Ltac run_step :=
  match goal with
  | H : (_, _) = (_, _) |- _ => inversion H; subst; clear H
  | H : Ret _ = Raise _ |- _ => discriminate H
  | H : Raise _ = Ret _ |- _ => discriminate H
  | H : context [match ?x with _ => _ end] |- _ => destruct x eqn:?
  | H : context [if ?x then _ else _] |- _ => destruct x eqn:?
  end.

Ltac run_cases :=
  unfold Run.bind, Run.try_except, Run.ret, Run.raise, Run.read, Run.call,
    Run.update, Run.attempt, Run.lift, Run.getopt, Run.setopt in *;
  repeat run_step.

(** Every handler of a run, opened. *)
Ltac unfold_handlers H :=
  unfold _process_command, dispatch, _cmd_mode, _cmd_volume, float_of,
    _cmd_follow, _cmd_status, flag, _cmd_levels, _cmd_ptt_test, _cmd_clear,
    _cmd_save, any_exception in H.

(* ========================================================================= *)
(** * Properties *)

(* ------------------------------------------------------------------------- *)
(** ** The models on examples *)

Example split1_examples :
  PyStr.split1 "  mode   datac1 x  " = ["mode"; "datac1 x  "]
  /\ PyStr.split1 "ping" = ["ping"]
  /\ PyStr.split1 "   " = []
  /\ PyStr.split1 (PyStr.upper "Volume -6.5") = ["VOLUME"; "-6.5"].
Proof. by_evaluation. Qed.

Example float_of_string_examples :
  PyFloat.of_string "-6.5" = Some (PyFloat.Fin true 7318349394477056 (-50))
  /\ PyFloat.of_string "1_000.5" = PyFloat.of_string "1000.5"
  /\ PyFloat.of_string " 1E3 " = PyFloat.of_string "1000"
  /\ PyFloat.of_string "NAN" = Some PyFloat.Nan
  /\ PyFloat.of_string "-Infinity" = Some (PyFloat.Inf true)
  /\ PyFloat.of_string "1e999" = Some (PyFloat.Inf false)
  /\ PyFloat.of_string "abc" = None
  /\ PyFloat.of_string "1e" = None
  /\ PyFloat.of_string "1__0" = None
  /\ PyFloat.of_string "0x10" = None
  /\ PyFloat.of_string "" = None.
Proof. by_evaluation. Qed.

Example float_repr_examples :
  map (fun s => option_map PyFloat.repr (PyFloat.of_string s))
      ["1"; "0.1"; "-6.5"; "1e16"; "0.00001"; "9007199254740993"; "-0";
       "0.30000000000000004"; "5e-324"; "1e23"]
  = map Some
      ["1.0"; "0.1"; "-6.5"; "1e+16"; "1e-05"; "9007199254740992.0"; "-0.0";
       "0.30000000000000004"; "5e-324"; "1e+23"].
Proof. vm_compute. reflexivity. Qed.

Example float_format_examples :
  map (fun s => option_map PyFloat.format_1f (PyFloat.of_string s))
      ["0.25"; "0.35"; "-20.46"; "-0.04"; "1e3"; "inf"]
  = map Some ["0.2"; "0.3"; "-20.5"; "-0.0"; "1000.0"; "inf"].
Proof. vm_compute. reflexivity. Qed.

(* ------------------------------------------------------------------------- *)
(** ** Uppercasing and splitting *)

Section Strings.
Import PyStr.

Lemma upper_char_idem (c : ascii) : upper_char (upper_char c) = upper_char c.
Proof. by_char c. Qed.

Lemma is_space_upper_char (c : ascii) : is_space (upper_char c) = is_space c.
Proof. by_char c. Qed.

Lemma upper_idem (s : string) : upper (upper s) = upper s.
Proof.
  induction s as [|c s IH]; simpl; [reflexivity|].
  now rewrite upper_char_idem, IH.
Qed.

Lemma is_empty_upper (s : string) : is_empty (upper s) = is_empty s.
Proof. destruct s; reflexivity. Qed.

Lemma lstrip_upper (s : string) : lstrip (upper s) = upper (lstrip s).
Proof.
  induction s as [|c s IH]; simpl; [reflexivity|].
  rewrite is_space_upper_char. destruct (is_space c); [exact IH | reflexivity].
Qed.

Lemma take_word_upper (s : string) :
  take_word (upper s) = (upper (fst (take_word s)), upper (snd (take_word s))).
Proof.
  induction s as [|c s IH]; simpl; [reflexivity|].
  rewrite is_space_upper_char. destruct (is_space c); [reflexivity|].
  rewrite IH. destruct (take_word s); reflexivity.
Qed.

(** Splitting the uppercased line gives the uppercased parts of the line. *)
Lemma split1_upper (s : string) : split1 (upper s) = map upper (split1 s).
Proof.
  unfold split1. rewrite lstrip_upper.
  destruct (lstrip s) as [|c t]; [reflexivity|].
  change (upper (String c t)) with (String (upper_char c) (upper t)).
  cbv iota. change (String (upper_char c) (upper t)) with (upper (String c t)).
  rewrite take_word_upper.
  destruct (take_word (String c t)) as [w r]. simpl fst; simpl snd.
  rewrite lstrip_upper. destruct (lstrip r); reflexivity.
Qed.

(** The parts of an uppercased line are uppercase. *)
Lemma split1_upper_parts (s : string) (parts : list string) :
  split1 (upper s) = parts -> Forall (fun p => upper p = p) parts.
Proof.
  rewrite split1_upper. intros <-.
  apply Forall_forall. intros p Hp.
  apply in_map_iff in Hp as (q & <- & _). apply upper_idem.
Qed.

Lemma lstrip_all_space (lead t : string) :
  all_space lead = true -> lstrip (lead ++ t) = lstrip t.
Proof.
  induction lead as [|c lead IH]; simpl; [reflexivity|].
  intros H. apply andb_prop in H as [Hc Hl]. rewrite Hc. auto.
Qed.

Lemma lstrip_begins_word (t : string) : begins_word t = true -> lstrip t = t.
Proof.
  destruct t as [|c t]; simpl; [discriminate|].
  intros H. apply negb_true_iff in H. now rewrite H.
Qed.

Lemma take_word_app (w t : string) :
  no_space w = true -> begins_word t = false ->
  take_word (w ++ t) = (w, t).
Proof.
  induction w as [|c w IH]; simpl; intros Hw Ht.
  - destruct t as [|d t]; [reflexivity|]. simpl in Ht.
    apply negb_false_iff in Ht. simpl. now rewrite Ht.
  - apply andb_prop in Hw as [Hc Hw]. apply negb_true_iff in Hc.
    rewrite Hc, IH; auto.
Qed.

Lemma begins_word_gap (gap a : string) :
  all_space gap = true -> is_empty gap = false -> begins_word (gap ++ a) = false.
Proof.
  destruct gap as [|c gap]; simpl; [discriminate|].
  intros H _. apply andb_prop in H as [Hc _]. now rewrite Hc.
Qed.

(** A line made of a word, a run of whitespace and a text splits into the
    word and the text, whatever whitespace leads it. *)
Lemma split1_verb_arg (lead verb gap a : string) :
  all_space lead = true -> is_word verb = true ->
  all_space gap = true -> is_empty gap = false -> begins_word a = true ->
  split1 (lead ++ verb ++ gap ++ a) = [verb; a].
Proof.
  intros Hl Hv Hg Hne Ha. unfold split1.
  apply andb_prop in Hv as [Hv1 Hv2].
  rewrite lstrip_all_space by assumption.
  assert (Hb : begins_word (verb ++ gap ++ a) = true).
  { destruct verb as [|c v]; [discriminate|]. simpl in *.
    now apply andb_prop in Hv2 as [-> _]. }
  rewrite (lstrip_begins_word _ Hb).
  destruct (verb ++ gap ++ a) as [|c0 t0] eqn:E; [discriminate|].
  rewrite <- E, take_word_app; auto using begins_word_gap.
  rewrite lstrip_all_space, (lstrip_begins_word _ Ha) by assumption.
  destruct a; [discriminate | reflexivity].
Qed.

Lemma lstrip_shape (s : string) : lstrip s = "" \/ begins_word (lstrip s) = true.
Proof.
  induction s as [|c s IH]; simpl; [now left|].
  destruct (is_space c) eqn:E; [exact IH|]. right. simpl. now rewrite E.
Qed.

(** The second part of a split, when there is one, is not empty. *)
Lemma split1_second (s verb a : string) (rest : list string) :
  split1 s = verb :: a :: rest -> begins_word a = true /\ rest = [].
Proof.
  unfold split1. destruct (lstrip s) as [|c t]; [discriminate|].
  destruct (take_word (String c t)) as [w r].
  destruct (lstrip_shape r) as [E | E].
  - rewrite E. discriminate.
  - destruct (lstrip r) as [|d r'] eqn:Er; [discriminate|].
    intros H. inversion H; subst. auto.
Qed.

Lemma begins_word_not_empty (a : string) : begins_word a = true -> is_empty a = false.
Proof. destruct a; [discriminate | reflexivity]. Qed.

Lemma begins_word_upper (a : string) : begins_word (upper a) = begins_word a.
Proof. destruct a as [|c a]; simpl; [reflexivity|]. now rewrite is_space_upper_char. Qed.

Lemma mem_In (x : string) (l : list string) : mem x l = true <-> In x l.
Proof.
  induction l as [|y l IH]; simpl; [intuition discriminate|].
  rewrite orb_true_iff, IH, String.eqb_eq. intuition congruence.
Qed.

Lemma mem_not_In (x : string) (l : list string) : ~ In x l -> mem x l = false.
Proof.
  intros H. destruct (mem x l) eqn:E; [|reflexivity].
  apply mem_In in E. contradiction.
Qed.

End Strings.

(* ------------------------------------------------------------------------- *)
(** ** [float] does not look at the case *)

Section Floats.
Import PyStr PyFloat.

Lemma is_digit_upper_char c : is_digit (upper_char c) = is_digit c.
Proof. by_char c. Qed.
Lemma is_cspace_upper_char c : is_cspace (upper_char c) = is_cspace c.
Proof. by_char c. Qed.
Lemma underscore_upper_char c : Ascii.eqb (upper_char c) "_" = Ascii.eqb c "_".
Proof. by_char c. Qed.
Lemma digit_code_upper_char c : is_digit c = true -> upper_char c = c.
Proof. destruct c as [[] [] [] [] [] [] [] []]; (reflexivity || discriminate). Qed.

Lemma drop_underscores_upper prev s :
  drop_underscores (upper_char prev) (upper s)
  = option_map upper (drop_underscores prev s).
Proof.
  revert prev. induction s as [|c s IH]; intros prev; simpl.
  - rewrite underscore_upper_char. now destruct (Ascii.eqb prev "_").
  - rewrite !underscore_upper_char, !is_digit_upper_char.
    destruct (Ascii.eqb c "_").
    + destruct (is_digit prev); [apply IH | reflexivity].
    + destruct (Ascii.eqb prev "_" && negb (is_digit c)); [reflexivity|].
      rewrite IH. now destruct (drop_underscores c s).
Qed.

Lemma lstrip_c_upper s : lstrip_c (upper s) = upper (lstrip_c s).
Proof.
  induction s as [|c s IH]; simpl; [reflexivity|].
  rewrite is_cspace_upper_char. now destruct (is_cspace c).
Qed.

Lemma rstrip_c_upper s : rstrip_c (upper s) = upper (rstrip_c s).
Proof.
  induction s as [|c s IH]; simpl; [reflexivity|].
  rewrite IH, is_cspace_upper_char.
  destruct (rstrip_c s); simpl; [now destruct (is_cspace c) | reflexivity].
Qed.

Lemma read_sign_upper s :
  read_sign (upper s) = (fst (read_sign s), upper (snd (read_sign s))).
Proof.
  destruct s as [|c s]; [reflexivity|].
  destruct c as [[] [] [] [] [] [] [] []]; reflexivity.
Qed.

Lemma read_digits_upper s acc cnt :
  read_digits (upper s) acc cnt
  = (fst (read_digits s acc cnt), upper (snd (read_digits s acc cnt))).
Proof.
  revert acc cnt. induction s as [|c s IH]; intros acc cnt; simpl; [reflexivity|].
  rewrite is_digit_upper_char. destruct (is_digit c) eqn:E; [|reflexivity].
  rewrite (digit_code_upper_char _ E). apply IH.
Qed.

Lemma ci_strip_upper p s : ci_strip p (upper s) = option_map upper (ci_strip p s).
Proof.
  revert s. induction p as [|a p IH]; intros s; simpl; [reflexivity|].
  destruct s as [|b s]; simpl; [reflexivity|].
  rewrite upper_char_idem. destruct (Ascii.eqb (upper_char a) (upper_char b)); auto.
Qed.

Lemma parse_special_upper neg s : parse_special neg (upper s) = parse_special neg s.
Proof.
  unfold parse_special. rewrite !ci_strip_upper.
  destruct (ci_strip "INF" s) as [r|]; cbn [option_map].
  - rewrite is_empty_upper. destruct (is_empty r); [reflexivity|].
    rewrite ci_strip_upper. destruct (ci_strip "INITY" r) as [[|]|]; reflexivity.
  - destruct (ci_strip "NAN" s) as [[|]|]; reflexivity.
Qed.

Lemma parse_decimal_upper neg s : parse_decimal neg (upper s) = parse_decimal neg s.
Proof.
  unfold parse_decimal. rewrite read_digits_upper.
  destruct (read_digits s 0 0) as [[ip ni] r1]. simpl fst; simpl snd.
  assert (E : (match upper r1 with
               | String "." r => read_digits r ip 0
               | _ => (ip, 0, upper r1)
               end)
              = (let '(D, nf, r2) := match r1 with
                                     | String "." r => read_digits r ip 0
                                     | _ => (ip, 0, r1)
                                     end in (D, nf, upper r2))).
  { destruct r1 as [|c r]; [reflexivity|].
    destruct c as [[] [] [] [] [] [] [] []]; try reflexivity.
    simpl. rewrite read_digits_upper. now destruct (read_digits r ip 0) as [[? ?] ?]. }
  cbv beta iota. rewrite E. clear E.
  destruct (match r1 with String "." r => read_digits r ip 0 | _ => (ip, 0, r1) end)
    as [[D nf] r2].
  destruct (ni + nf =? 0)%Z; [reflexivity|].
  destruct r2 as [|c r3]; simpl; [reflexivity|].
  rewrite upper_char_idem. destruct (Ascii.eqb (upper_char c) "E"); [|reflexivity].
  rewrite read_sign_upper. destruct (read_sign r3) as [eneg r4]. simpl fst; simpl snd.
  rewrite read_digits_upper. destruct (read_digits r4 0 0) as [[x nx] r5].
  simpl. now rewrite is_empty_upper.
Qed.

(** Where only the ASCII letters have a case, as here, [float] reads a text
    and its upper case alike. *)
Lemma of_string_upper s : of_string (upper s) = of_string s.
Proof.
  unfold of_string.
  change zero with (upper_char zero) at 1. rewrite drop_underscores_upper.
  destruct (drop_underscores zero s) as [s1|]; simpl; [|reflexivity].
  rewrite lstrip_c_upper, rstrip_c_upper, is_empty_upper.
  destruct (is_empty (rstrip_c (lstrip_c s1))); [reflexivity|].
  rewrite read_sign_upper. destruct (read_sign (rstrip_c (lstrip_c s1))) as [neg body].
  simpl fst; simpl snd.
  now rewrite parse_decimal_upper, parse_special_upper.
Qed.

End Floats.

(* ------------------------------------------------------------------------- *)
(** ** Dictionaries *)

Section Dicts.
Context {V : Type}.

Lemma get_set_same (k : string) (v : V) (d : PyDict.t V) :
  PyDict.get k (PyDict.set k v d) = Some v.
Proof.
  induction d as [|[k' v'] d IH]; simpl.
  - now rewrite String.eqb_refl.
  - destruct (String.eqb k k') eqn:E; simpl; rewrite E; auto.
Qed.

Lemma get_set_other (k k' : string) (v : V) (d : PyDict.t V) :
  k <> k' -> PyDict.get k (PyDict.set k' v d) = PyDict.get k d.
Proof.
  intros Hne. induction d as [|[k0 v0] d IH]; simpl.
  - apply String.eqb_neq in Hne. now rewrite Hne.
  - destruct (String.eqb k' k0) eqn:E; simpl.
    + apply String.eqb_eq in E. subst k0.
      apply String.eqb_neq in Hne. now rewrite Hne.
    + destruct (String.eqb k k0); auto.
Qed.

Lemma get_set_defined (k k' : string) (v : V) (d : PyDict.t V) :
  PyDict.get k d <> None -> PyDict.get k (PyDict.set k' v d) <> None.
Proof.
  intros H. destruct (String.eqb_spec k k') as [-> | Hne].
  - rewrite get_set_same. discriminate.
  - now rewrite get_set_other.
Qed.




End Dicts.

(* ------------------------------------------------------------------------- *)
(** ** Running the handlers *)

Section Responses.
Context {W : Type} {C : Collaborators W}.
Import PyStr.

Lemma cmd_mode_shape arg (s s' : Server W) r :
  _cmd_mode arg s = (Ret r, s') -> well_formed r = true.
Proof. unfold _cmd_mode. intros H. run_cases; reflexivity. Qed.

Lemma cmd_volume_shape arg (s s' : Server W) r :
  _cmd_volume arg s = (Ret r, s') -> well_formed r = true.
Proof. unfold _cmd_volume, float_of. intros H. run_cases; reflexivity. Qed.

Lemma cmd_follow_shape arg (s s' : Server W) r :
  _cmd_follow arg s = (Ret r, s') -> well_formed r = true.
Proof. unfold _cmd_follow. intros H. run_cases; reflexivity. Qed.

Lemma cmd_status_shape (s s' : Server W) r :
  _cmd_status s = (Ret r, s') -> well_formed r = true.
Proof. unfold _cmd_status, flag. intros H. run_cases; reflexivity. Qed.

Lemma cmd_levels_shape (s s' : Server W) r :
  _cmd_levels s = (Ret r, s') -> well_formed r = true.
Proof. unfold _cmd_levels, any_exception. intros H. run_cases; reflexivity. Qed.

Lemma cmd_ptt_test_shape (s s' : Server W) r :
  _cmd_ptt_test s = (Ret r, s') -> well_formed r = true.
Proof. unfold _cmd_ptt_test, any_exception. intros H. run_cases; reflexivity. Qed.

Lemma cmd_clear_shape (s s' : Server W) r :
  _cmd_clear s = (Ret r, s') -> well_formed r = true.
Proof. unfold _cmd_clear, any_exception. intros H. run_cases; reflexivity. Qed.

Lemma cmd_save_shape (s s' : Server W) r :
  _cmd_save s = (Ret r, s') -> well_formed r = true.
Proof. unfold _cmd_save, any_exception. intros H. run_cases; reflexivity. Qed.

(** Whatever a handler returns begins with [OK] or [ERROR]. *)
Lemma dispatch_shape cmd arg (s s' : Server W) r :
  dispatch cmd arg s = (Ret r, s') -> well_formed r = true.
Proof.
  unfold dispatch. intros H.
  repeat match type of H with
         | context [if String.eqb ?a ?b then _ else _] =>
             destruct (String.eqb a b)
         end;
  eauto using cmd_mode_shape, cmd_volume_shape, cmd_follow_shape,
    cmd_status_shape, cmd_levels_shape, cmd_ptt_test_shape, cmd_clear_shape,
    cmd_save_shape;
  inversion H; reflexivity.
Qed.

(** The dispatcher on a line with a verb: the handler inside the [try]. *)
Lemma process_command_dispatch line cmd arg (s : Server W) :
  verb_arg (split1 (upper line)) = Some (cmd, arg) ->
  _process_command line s =
  Run.try_except any_exception (dispatch cmd arg)
    (fun e => Run.ret ("ERROR " ++ exc_msg e)) s.
Proof. intros H. unfold _process_command. now rewrite H. Qed.

(** An [OK] response of the dispatcher is the response of the handler. *)
Lemma process_command_ok line (s s' : Server W) r :
  _process_command line s = (Ret r, s') -> starts_with "OK" r = true ->
  exists cmd arg,
    verb_arg (split1 (upper line)) = Some (cmd, arg)
    /\ dispatch cmd arg s = (Ret r, s').
Proof.
  unfold _process_command.
  destruct (verb_arg (split1 (upper line))) as [[cmd arg]|].
  - unfold Run.try_except, any_exception, Run.ret.
    destruct (dispatch cmd arg s) as [[r0|e] s0] eqn:E; intros H Hok.
    + inversion H; subst. now exists cmd, arg.
    + inversion H; subst. discriminate Hok.
  - intros H Hok. inversion H; subst. discriminate Hok.
Qed.

(** The verb and the argument a handler gets are the uppercased verb and
    argument of the line. *)
Lemma verb_arg_upper (line : string) :
  verb_arg (split1 (upper line)) =
  option_map (fun va => (upper (fst va), upper (snd va)))
             (verb_arg (split1 line)).
Proof.
  rewrite split1_upper. destruct (split1 line) as [|v [|a l]]; reflexivity.
Qed.

(** *** What the handlers echo *)

Lemma cmd_mode_ok arg (s s' : Server W) r :
  is_empty arg = false -> _cmd_mode arg s = (Ret r, s') ->
  starts_with "OK" r = true -> r = "OK MODE " ++ upper arg.
Proof.
  unfold _cmd_mode. intros Hne H Hok. rewrite Hne in H.
  run_cases; try discriminate Hok; reflexivity.
Qed.

Lemma cmd_follow_ok arg (s s' : Server W) r :
  is_empty arg = false -> _cmd_follow arg s = (Ret r, s') ->
  starts_with "OK" r = true -> r = "OK FOLLOW " ++ upper arg.
Proof.
  unfold _cmd_follow. intros Hne H Hok. rewrite Hne in H.
  run_cases; try discriminate Hok;
    match goal with
    | E : String.eqb _ _ = true |- _ => apply String.eqb_eq in E; now rewrite E
    end.
Qed.

Lemma cmd_volume_ok arg (s s' : Server W) r :
  is_empty arg = false -> _cmd_volume arg s = (Ret r, s') ->
  starts_with "OK" r = true ->
  exists x, PyFloat.of_string arg = Some x /\ r = "OK VOLUME " ++ PyFloat.repr x.
Proof.
  unfold _cmd_volume, float_of. intros Hne H Hok. rewrite Hne in H.
  run_cases; try discriminate Hok; eauto.
Qed.

(** No command removes an option or touches the list of modes: an option
    that is defined stays defined. *)
Lemma dispatch_keeps_options cmd arg (s s' : Server W) o :
  dispatch cmd arg s = (o, s') ->
  valid_modes s' = valid_modes s
  /\ forall k, PyDict.get k (options s) <> None ->
               PyDict.get k (options s') <> None.
Proof.
  unfold dispatch, _cmd_mode, _cmd_volume, float_of, _cmd_follow, _cmd_status,
    flag, _cmd_levels, _cmd_ptt_test, _cmd_clear, _cmd_save, any_exception.
  intros H. run_cases; split; simpl; auto using get_set_defined.
Qed.

Lemma process_command_keeps_options line (s s' : Server W) o :
  _process_command line s = (o, s') ->
  valid_modes s' = valid_modes s
  /\ forall k, PyDict.get k (options s) <> None ->
               PyDict.get k (options s') <> None.
Proof.
  unfold _process_command.
  destruct (verb_arg (split1 (upper line))) as [[cmd arg]|].
  - unfold Run.try_except, any_exception, Run.ret.
    destruct (dispatch cmd arg s) as [[r|e] s1] eqn:E; intros H;
      inversion H; subst; eapply dispatch_keeps_options; eassumption.
  - intros H. inversion H; subst. auto.
Qed.

End Responses.

(* ------------------------------------------------------------------------- *)
(** ** The dispatcher answers every line (C1) *)

(** C1.  For every line and every state of the collaborators,
    [_process_command] returns, and what it returns is one response that
    begins with [OK] or [ERROR]; an exception never leaves it: when the handler
    of the line raises [e], the response is [ERROR] followed by the message of
    [e]. *)
Theorem process_command_responds
  (W : Type) (C : Collaborators W) (line : string) (s : Server W) :
  (exists r s', _process_command line s = (Ret r, s') /\ well_formed r = true)
  /\ (forall cmd arg e s',
        verb_arg (PyStr.split1 (PyStr.upper line)) = Some (cmd, arg) ->
        dispatch cmd arg s = (Raise e, s') ->
        _process_command line s = (Ret ("ERROR " ++ exc_msg e), s')).
Proof.
  split.
  - unfold _process_command.
    destruct (verb_arg (PyStr.split1 (PyStr.upper line))) as [[cmd arg]|].
    + unfold Run.try_except, any_exception.
      destruct (dispatch cmd arg s) as [[r|e] s1] eqn:E.
      * exists r, s1. split; [reflexivity | eapply dispatch_shape; eassumption].
      * eexists _, s1. split; reflexivity.
    + eexists _, s. split; reflexivity.
  - intros cmd arg e s' Hv Hd.
    rewrite (process_command_dispatch _ _ _ _ Hv).
    unfold Run.try_except, any_exception. now rewrite Hd.
Qed.

Lemma process_command_responds_witness :
  _process_command "mode datac3" Rig.broken
  = (Ret "ERROR modem not responding", Rig.broken).
Proof.
  apply (proj2 (process_command_responds Rig.t _ "mode datac3" Rig.broken)
           "MODE" "DATAC3"
           (mkExn OtherException "modem not responding") Rig.broken);
    reflexivity.
Defined.

(* ------------------------------------------------------------------------- *)
(** ** The case of the line (C10) *)

(** C10.  The dispatcher gives the same result, response and state, on a line
    and on the line uppercased, because it uppercases the whole line before it
    splits it.  The verb and the argument that reach the handlers are the
    uppercased verb and argument of the client's line, and so is what comes
    back: the name in [OK MODE], the state in [OK FOLLOW], the verb in the
    error for an unknown command. *)
Theorem process_command_case_blind
  (W : Type) (C : Collaborators W) (line : string) (s : Server W) :
  _process_command (PyStr.upper line) s = _process_command line s
  /\ verb_arg (PyStr.split1 (PyStr.upper line))
     = option_map (fun va => (PyStr.upper (fst va), PyStr.upper (snd va)))
                  (verb_arg (PyStr.split1 line))
  /\ (forall verb rest,
        PyStr.split1 line = verb :: rest ->
        PyStr.mem (PyStr.upper verb) verbs = false ->
        _process_command line s
        = (Ret ("ERROR Unknown command: " ++ PyStr.upper verb), s))
  /\ (forall verb a r s',
        PyStr.split1 line = [verb; a] ->
        _process_command line s = (Ret r, s') ->
        PyStr.starts_with "OK" r = true ->
        (PyStr.upper verb = "MODE" -> r = "OK MODE " ++ PyStr.upper a)
        /\ (PyStr.upper verb = "FOLLOW" -> r = "OK FOLLOW " ++ PyStr.upper a)).
Proof.
  split; [|split; [|split]].
  - unfold _process_command. now rewrite upper_idem.
  - apply verb_arg_upper.
  - intros verb rest Hs Hm.
    erewrite process_command_dispatch
      by (rewrite verb_arg_upper, Hs; reflexivity).
    unfold verbs in Hm. simpl in Hm.
    repeat (apply orb_false_elim in Hm as [? Hm]).
    unfold dispatch, Run.try_except. cbn [fst snd].
    repeat match goal with E : String.eqb _ _ = false |- _ => rewrite E; clear E end.
    reflexivity.
  - intros verb a r s' Hs H Hok.
    destruct (process_command_ok _ _ _ _ H Hok) as (cmd & arg & Hv & Hd).
    rewrite verb_arg_upper, Hs in Hv. simpl in Hv. inversion Hv; subst cmd arg.
    assert (Hne : PyStr.is_empty (PyStr.upper a) = false).
    { apply begins_word_not_empty. rewrite begins_word_upper.
      eapply split1_second; eassumption. }
    split; intros Hverb; rewrite Hverb in Hd; unfold dispatch in Hd; simpl in Hd.
    + rewrite <- (upper_idem a). eapply cmd_mode_ok; eassumption.
    + rewrite <- (upper_idem a). eapply cmd_follow_ok; eassumption.
Qed.

Lemma process_command_case_blind_witness :
  _process_command "frob 1" Rig.server
  = (Ret "ERROR Unknown command: FROB", Rig.server)
  /\ "OK MODE DATAC3" = "OK MODE " ++ PyStr.upper "datac3".
Proof.
  pose proof (process_command_case_blind Rig.t _ "frob 1" Rig.server)
    as (_ & _ & Hunknown & _).
  pose proof (process_command_case_blind Rig.t _ "mode datac3" Rig.server)
    as (_ & _ & _ & Hecho).
  split.
  - apply (Hunknown "frob" ["1"]); reflexivity.
  - eapply (Hecho "mode" "datac3"); reflexivity.
Defined.

(* ------------------------------------------------------------------------- *)
(** ** The argument and its echo (C3) *)

(** C3, as stated, fails: the argument does not reach the handler as the
    client sent it, and the response does not repeat the client's text.
    [mode datac3] is answered [OK MODE DATAC3], and [VOLUME 1] is answered
    [OK VOLUME 1.0]. *)
Lemma echo_not_verbatim :
  ~ (forall (line verb a r : string) (s s' : Server Rig.t),
       PyStr.split1 line = [verb; a] ->
       _process_command line s = (Ret r, s') ->
       PyStr.starts_with "OK" r = true ->
       PyStr.upper verb = "MODE" -> r = "OK MODE " ++ a)
  /\ ~ (forall (line verb a r : string) (s s' : Server Rig.t),
          PyStr.split1 line = [verb; a] ->
          _process_command line s = (Ret r, s') ->
          PyStr.starts_with "OK" r = true ->
          PyStr.upper verb = "VOLUME" -> r = "OK VOLUME " ++ a).
Proof.
  split; intros H.
  - assert (E : exists s', _process_command "mode datac3" Rig.server
                           = (Ret "OK MODE DATAC3", s'))
      by (eexists; vm_compute; reflexivity).
    destruct E as [s' E].
    discriminate (H "mode datac3" "mode" "datac3" _ _ _ eq_refl E eq_refl eq_refl).
  - assert (E : exists s', _process_command "VOLUME 1" Rig.server
                           = (Ret "OK VOLUME 1.0", s'))
      by (eexists; vm_compute; reflexivity).
    destruct E as [s' E].
    discriminate (H "VOLUME 1" "VOLUME" "1" _ _ _ eq_refl E eq_refl eq_refl).
Qed.

(** C3, amended.  The dispatcher uppercases the line and splits it at the
    first run of whitespace: for a line made of a verb, a run of whitespace and
    a text, the handler of the verb gets the uppercased text as its argument.
    A successful [MODE] answers with the uppercased name, a successful
    [FOLLOW] with the uppercased [ON] or [OFF], and a successful [VOLUME] with
    Python's text of the float it parsed from the uppercased argument, which
    need not be the client's text. *)
Theorem dispatcher_argument_echo
  (W : Type) (C : Collaborators W) (lead verb gap a : string) (s : Server W) :
  all_space lead = true -> is_word verb = true ->
  all_space gap = true -> PyStr.is_empty gap = false ->
  begins_word a = true ->
  let line := lead ++ verb ++ gap ++ a in
  PyStr.split1 (PyStr.upper line) = [PyStr.upper verb; PyStr.upper a]
  /\ (forall r s',
        _process_command line s = (Ret r, s') ->
        PyStr.starts_with "OK" r = true ->
        (PyStr.upper verb = "MODE" -> r = "OK MODE " ++ PyStr.upper a)
        /\ (PyStr.upper verb = "FOLLOW" -> r = "OK FOLLOW " ++ PyStr.upper a)
        /\ (PyStr.upper verb = "VOLUME" ->
            exists x, PyFloat.of_string (PyStr.upper a) = Some x
                      /\ r = "OK VOLUME " ++ PyFloat.repr x)).
Proof.
  intros Hl Hv Hg Hne Ha line.
  assert (Hs : PyStr.split1 (PyStr.upper line) = [PyStr.upper verb; PyStr.upper a]).
  { rewrite split1_upper. unfold line.
    now rewrite split1_verb_arg. }
  split; [exact Hs|].
  intros r s' H Hok.
  destruct (process_command_ok _ _ _ _ H Hok) as (cmd & arg & Hva & Hd).
  rewrite Hs in Hva. simpl in Hva. inversion Hva; subst cmd arg.
  assert (Hne' : PyStr.is_empty (PyStr.upper a) = false).
  { apply begins_word_not_empty. now rewrite begins_word_upper. }
  repeat split; intros Hverb; rewrite Hverb in Hd; unfold dispatch in Hd;
    simpl in Hd.
  - rewrite <- (upper_idem a). eapply cmd_mode_ok; eassumption.
  - rewrite <- (upper_idem a). eapply cmd_follow_ok; eassumption.
  - eapply cmd_volume_ok; eassumption.
Qed.

Lemma dispatcher_argument_echo_witness :
  PyStr.split1 (PyStr.upper "  volume   1e3")
  = [PyStr.upper "volume"; PyStr.upper "1e3"]
  /\ exists x, PyFloat.of_string (PyStr.upper "1e3") = Some x
               /\ "OK VOLUME 1000.0" = "OK VOLUME " ++ PyFloat.repr x.
Proof.
  pose proof (dispatcher_argument_echo Rig.t _ "  " "volume" "   " "1e3"
                Rig.server eq_refl eq_refl eq_refl eq_refl eq_refl)
    as [Hsplit Hecho].
  split; [exact Hsplit|].
  eapply (Hecho "OK VOLUME 1000.0"); reflexivity.
Defined.

(* ------------------------------------------------------------------------- *)
(** ** [MODE] (C5, C6) *)

Section Mode.
Context {W : Type} {C : Collaborators W}.

Lemma split1_mode (m : string) :
  begins_word m = true -> PyStr.split1 ("MODE " ++ m) = ["MODE"; m].
Proof.
  intros Hm. change ("MODE " ++ m) with ("" ++ "MODE" ++ " " ++ m).
  now apply split1_verb_arg.
Qed.

Lemma dispatch_mode (arg : string) : dispatch "MODE" arg = _cmd_mode arg.
Proof. reflexivity. Qed.

Lemma cmd_mode_query (s : Server W) :
  _cmd_mode "" s = (Ret ("OK MODE " ++ modem_name (devs s)), s).
Proof. reflexivity. Qed.

Lemma cmd_mode_set (s : Server W) (arg : string) (w' : W) :
  PyStr.is_empty arg = false -> In (PyStr.upper arg) (valid_modes s) ->
  set_mode (PyStr.upper arg) (devs s) = (Ret tt, w') ->
  _cmd_mode arg s
  = (Ret ("OK MODE " ++ PyStr.upper arg),
     mkServer w' (PyDict.set "mode" (PyVal.VStr (PyStr.upper arg)) (options s))
       (valid_modes s)).
Proof.
  intros Hne Hin Hset. unfold _cmd_mode. rewrite Hne.
  apply mem_In in Hin. rewrite Hin. simpl.
  unfold Run.bind, Run.call. now rewrite Hset.
Qed.

Lemma cmd_mode_reject (s : Server W) (arg : string) :
  PyStr.is_empty arg = false -> ~ In (PyStr.upper arg) (valid_modes s) ->
  _cmd_mode arg s
  = (Ret ("ERROR Invalid mode. Valid: " ++ PyStr.join ", " (valid_modes s)), s).
Proof.
  intros Hne Hin. unfold _cmd_mode. rewrite Hne.
  now rewrite (mem_not_In _ _ Hin).
Qed.

End Mode.

(** C5.  For a mode name [m] of the valid-mode set (the names are uppercase
    words, as the dispatcher compares the uppercased argument with them), and
    a modem whose [set_mode m] returns and makes [m] its [modem_name]:
    [MODE m] answers [OK MODE m] and the [MODE] query that follows answers
    [OK MODE m]. *)
Theorem mode_set_then_query
  (W : Type) (C : Collaborators W) (s : Server W) (m : string) (w' : W) :
  In m (valid_modes s) -> PyStr.upper m = m -> begins_word m = true ->
  set_mode m (devs s) = (Ret tt, w') -> modem_name w' = m ->
  let s1 := mkServer w' (PyDict.set "mode" (PyVal.VStr m) (options s))
              (valid_modes s) in
  _process_command ("MODE " ++ m) s = (Ret ("OK MODE " ++ m), s1)
  /\ _process_command "MODE" s1 = (Ret ("OK MODE " ++ m), s1).
Proof.
  intros Hin Hup Hbw Hset Hname s1. split.
  - rewrite (process_command_dispatch _ "MODE" m).
    + unfold Run.try_except, dispatch. simpl.
      rewrite (cmd_mode_set s m w'); rewrite ?Hup; auto.
      now apply begins_word_not_empty.
    + rewrite verb_arg_upper, split1_mode by assumption. simpl. now rewrite Hup.
  - rewrite (process_command_dispatch _ "MODE" "") by reflexivity.
    unfold Run.try_except, dispatch. simpl. now rewrite Hname.
Qed.

Lemma mode_set_then_query_witness :
  _process_command "MODE DATAC4" Rig.server
  = (Ret "OK MODE DATAC4",
     mkServer (Rig.with_mode "DATAC4" Rig.idle)
       (PyDict.set "mode" (PyVal.VStr "DATAC4") (options Rig.server))
       (valid_modes Rig.server))
  /\ _process_command "MODE"
       (mkServer (Rig.with_mode "DATAC4" Rig.idle)
          (PyDict.set "mode" (PyVal.VStr "DATAC4") (options Rig.server))
          (valid_modes Rig.server))
     = (Ret "OK MODE DATAC4",
        mkServer (Rig.with_mode "DATAC4" Rig.idle)
          (PyDict.set "mode" (PyVal.VStr "DATAC4") (options Rig.server))
          (valid_modes Rig.server)).
Proof.
  apply (mode_set_then_query Rig.t _ Rig.server "DATAC4"
           (Rig.with_mode "DATAC4" Rig.idle)).
  - simpl. tauto.
  - reflexivity.
  - reflexivity.
  - reflexivity.
  - reflexivity.
Defined.

(** C6.  For a [MODE] line whose argument, as the dispatcher hands it to the
    handler, is not in the valid-mode set, the response is the error that
    lists the valid-mode set, each name once in its order, and the server is
    as before: the modem's mode and the options are unchanged. *)
Theorem mode_rejects_unknown
  (W : Type) (C : Collaborators W) (s : Server W) (line arg : string) :
  PyStr.split1 (PyStr.upper line) = ["MODE"; arg] ->
  ~ In arg (valid_modes s) ->
  _process_command line s
  = (Ret ("ERROR Invalid mode. Valid: " ++ PyStr.join ", " (valid_modes s)), s)
  /\ _cmd_mode arg s
     = (Ret ("ERROR Invalid mode. Valid: " ++ PyStr.join ", " (valid_modes s)), s).
Proof.
  intros Hs Hin.
  assert (Hne : PyStr.is_empty arg = false).
  { apply begins_word_not_empty. eapply split1_second; eassumption. }
  assert (Hup : PyStr.upper arg = arg).
  { pose proof (split1_upper_parts _ _ Hs) as F.
    inversion F as [|? ? _ F']; subst. now inversion F'. }
  assert (Hr : _cmd_mode arg s
     = (Ret ("ERROR Invalid mode. Valid: " ++ PyStr.join ", " (valid_modes s)), s))
    by (apply cmd_mode_reject; rewrite ?Hup; assumption).
  split; [|exact Hr].
  rewrite (process_command_dispatch _ "MODE" arg) by (now rewrite Hs).
  unfold Run.try_except. rewrite dispatch_mode, Hr. reflexivity.
Qed.

Lemma mode_rejects_unknown_witness :
  _process_command "mode bogus" Rig.server
  = (Ret "ERROR Invalid mode. Valid: DATAC1, DATAC3, DATAC4", Rig.server)
  /\ _cmd_mode "BOGUS" Rig.server
     = (Ret "ERROR Invalid mode. Valid: DATAC1, DATAC3, DATAC4", Rig.server).
Proof.
  apply (mode_rejects_unknown Rig.t _ Rig.server "mode bogus" "BOGUS").
  - reflexivity.
  - simpl. intros [H | [H | [H | []]]]; discriminate H.
Defined.

(* ------------------------------------------------------------------------- *)
(** ** [VOLUME] (C7, C4) *)

Section Volume.
Context {W : Type} {C : Collaborators W}.

Lemma dispatch_volume (arg : string) : dispatch "VOLUME" arg = _cmd_volume arg.
Proof. reflexivity. Qed.

Lemma cmd_volume_reject (s : Server W) (arg : string) :
  PyStr.is_empty arg = false -> PyFloat.of_string arg = None ->
  _cmd_volume arg s = (Ret "ERROR Invalid volume (must be number in dB)", s).
Proof.
  intros Hne Hf. unfold _cmd_volume, float_of. rewrite Hne, Hf. reflexivity.
Qed.

Lemma cmd_volume_set (s : Server W) (arg : string) (x : PyFloat.t) (w' : W) :
  PyStr.is_empty arg = false -> PyFloat.of_string arg = Some x ->
  set_db x (devs s) = (Ret tt, w') ->
  _cmd_volume arg s
  = (Ret ("OK VOLUME " ++ PyFloat.repr x),
     mkServer w' (PyDict.set "output_volume" (PyVal.VFloat x) (options s))
       (valid_modes s)).
Proof.
  intros Hne Hf Hset. unfold _cmd_volume, float_of. rewrite Hne, Hf.
  unfold Run.try_except, Run.bind, Run.ret, Run.call. now rewrite Hset.
Qed.

Lemma cmd_volume_query (s : Server W) (v : PyVal.t) :
  PyDict.get "output_volume" (options s) = Some v ->
  _cmd_volume "" s = (Ret ("OK VOLUME " ++ PyVal.str v), s).
Proof.
  intros Hv. unfold _cmd_volume, Run.bind, Run.getopt. simpl. now rewrite Hv.
Qed.

End Volume.

(** What [VOLUME] does refuse.  For a line whose argument, in upper case as
    the handler receives it, makes [float] raise [ValueError], the response is
    [ERROR Invalid volume (must be number in dB)] and the server is as
    before: the gain of the output device and the [output_volume] option are
    unchanged.  On an output device that takes the gain, [VOLUME -6.5]
    answers [OK VOLUME -6.5] and so does the [VOLUME] query that follows. *)
Lemma volume_refuses_what_float_refuses
  (W : Type) (C : Collaborators W) (s : Server W) :
  (forall line verb a,
      PyStr.split1 line = [verb; a] -> PyStr.upper verb = "VOLUME" ->
      PyFloat.of_string (PyStr.upper a) = None ->
      _process_command line s
      = (Ret "ERROR Invalid volume (must be number in dB)", s))
  /\ (forall x w',
        PyFloat.of_string "-6.5" = Some x ->
        set_db x (devs s) = (Ret tt, w') ->
        let s1 := mkServer w'
                    (PyDict.set "output_volume" (PyVal.VFloat x) (options s))
                    (valid_modes s) in
        _process_command "VOLUME -6.5" s = (Ret "OK VOLUME -6.5", s1)
        /\ _process_command "VOLUME" s1 = (Ret "OK VOLUME -6.5", s1)).
Proof.
  split.
  - intros line verb a Hs Hverb Hf.
    rewrite (process_command_dispatch _ "VOLUME" (PyStr.upper a)).
    + unfold Run.try_except. rewrite dispatch_volume.
      rewrite cmd_volume_reject; auto.
      rewrite is_empty_upper. apply begins_word_not_empty.
      eapply split1_second; eassumption.
    + rewrite verb_arg_upper, Hs. simpl. now rewrite Hverb.
  - intros x w' Hx Hset s1.
    assert (Hr : PyFloat.repr x = "-6.5").
    { vm_compute in Hx. inversion Hx. vm_compute. reflexivity. }
    split.
    + rewrite (process_command_dispatch _ "VOLUME" "-6.5") by reflexivity.
      unfold Run.try_except. rewrite dispatch_volume.
      rewrite (cmd_volume_set s "-6.5" x w'); auto. now rewrite Hr.
    + rewrite (process_command_dispatch _ "VOLUME" "") by reflexivity.
      unfold Run.try_except. rewrite dispatch_volume.
      rewrite (cmd_volume_query s1 (PyVal.VFloat x)).
      * simpl. now rewrite Hr.
      * apply get_set_same.
Qed.

Example volume_refuses_abc :
  _process_command "volume abc" Rig.server
  = (Ret "ERROR Invalid volume (must be number in dB)", Rig.server)
  /\ exists s1,
      _process_command "VOLUME -6.5" Rig.server = (Ret "OK VOLUME -6.5", s1)
      /\ _process_command "VOLUME" s1 = (Ret "OK VOLUME -6.5", s1).
Proof.
  pose proof (volume_refuses_what_float_refuses Rig.t _ Rig.server)
    as [Hbad Hgood].
  split.
  - apply (Hbad "volume abc" "volume" "abc"); reflexivity.
  - eexists.
    apply (Hgood (PyFloat.Fin true 7318349394477056 (-50))
             (Rig.with_db (PyFloat.Fin true 7318349394477056 (-50)) Rig.idle));
      reflexivity.
Qed.

(** C7, at the failing input.  The argument [nan] does not parse as a real
    number: [float] reads it as a NaN, which is not finite.  Yet [VOLUME nan]
    is not answered with [ERROR Invalid volume (must be number in dB)] but
    with [OK VOLUME nan], and neither the gain of the output device nor the
    [output_volume] option is left as it was: the gain was 0.0 and the option
    0, both are the NaN afterwards, and the [VOLUME] query answers with it.
    [VOLUME inf] is taken in the same way and leaves an infinite gain. *)
Theorem volume_nan_is_not_refused :
  exists s1 s2,
    PyFloat.of_string (PyStr.upper "nan") = Some PyFloat.Nan
    /\ PyFloat.is_finite PyFloat.Nan = false
    /\ _process_command "VOLUME nan" Rig.server = (Ret "OK VOLUME nan", s1)
    /\ Rig.rig_db (devs Rig.server) = PyFloat.Fin false 0 (-1074)
    /\ Rig.rig_db (devs s1) = PyFloat.Nan
    /\ PyDict.get "output_volume" (options Rig.server) = Some (PyVal.VInt 0)
    /\ PyDict.get "output_volume" (options s1)
       = Some (PyVal.VFloat PyFloat.Nan)
    /\ _process_command "VOLUME" s1 = (Ret "OK VOLUME nan", s1)
    /\ _process_command "VOLUME inf" Rig.server = (Ret "OK VOLUME inf", s2)
    /\ Rig.rig_db (devs s2) = PyFloat.Inf false.
Proof.
  exists (snd (_process_command "VOLUME nan" Rig.server)),
         (snd (_process_command "VOLUME inf" Rig.server)).
  by_evaluation.
Qed.

(** C4, at the failing input.  [VOLUME nan] is accepted: the response is
    [OK VOLUME nan], and the value stored in the output device and in the
    options is a NaN, which is not a finite number.  [VOLUME inf] and
    [VOLUME 1e999] store an infinity in the same way. *)
Theorem volume_accepts_nan :
  exists s',
    _process_command "VOLUME nan" Rig.server = (Ret "OK VOLUME nan", s')
    /\ PyDict.get "output_volume" (options s') = Some (PyVal.VFloat PyFloat.Nan)
    /\ Rig.rig_db (devs s') = PyFloat.Nan
    /\ PyFloat.is_finite PyFloat.Nan = false
    /\ fst (_process_command "VOLUME inf" Rig.server) = Ret "OK VOLUME inf"
    /\ fst (_process_command "VOLUME 1e999" Rig.server) = Ret "OK VOLUME inf".
Proof.
  eexists. by_evaluation.
Qed.

(* ------------------------------------------------------------------------- *)
(** ** [STATUS] (C8) *)

(** C8.  On a server whose options define [output_volume] and [follow] (the
    namespace of the program does), [STATUS] answers one [OK] line with the
    five fields [MODE], [VOLUME], [FOLLOW], [PTT], [CHANNEL] in that order and
    leaves the server as it is; [PTT] is [OFF] and [CHANNEL] is [CLEAR] when
    the output device has no [ptt] or no [inhibit] attribute. *)
Theorem status_line
  (W : Type) (C : Collaborators W) (s : Server W) (v f : PyVal.t) :
  PyDict.get "output_volume" (options s) = Some v ->
  PyDict.get "follow" (options s) = Some f ->
  _process_command "STATUS" s
  = (Ret ("OK STATUS MODE=" ++ modem_name (devs s)
            ++ " VOLUME=" ++ PyVal.str v
            ++ " FOLLOW=" ++ (if PyVal.truthy f then "ON" else "OFF")
            ++ " PTT=" ++ match ptt (devs s) with
                          | Some true => "ON"
                          | Some false | None => "OFF"
                          end
            ++ " CHANNEL=" ++ match inhibit (devs s) with
                              | Some true => "BUSY"
                              | Some false | None => "CLEAR"
                              end), s).
Proof.
  intros Hv Hf.
  rewrite (process_command_dispatch _ "STATUS" "") by reflexivity.
  unfold Run.try_except.
  change (dispatch "STATUS" "") with (_cmd_status (W := W)).
  unfold _cmd_status, flag, Run.bind, Run.read, Run.getopt, Run.ret.
  rewrite Hv, Hf.
  destruct (ptt (devs s)) as [[|]|]; destruct (inhibit (devs s)) as [[|]|];
    reflexivity.
Qed.

Lemma status_line_witness :
  _process_command "STATUS" Rig.server
  = (Ret "OK STATUS MODE=DATAC1 VOLUME=0 FOLLOW=OFF PTT=OFF CHANNEL=CLEAR",
     Rig.server).
Proof.
  exact (status_line Rig.t _ Rig.server (PyVal.VInt 0) (PyVal.VBool false)
           eq_refl eq_refl).
Defined.

(* ------------------------------------------------------------------------- *)
(** ** [SAVE] (C9) *)

Section Save.
Context {W : Type} {C : Collaborators W}.




End Save.





(** [pathlib] joins the name to the home directory: a slash between them,
    none after a root, and a home that is the current directory gives the
    bare name. *)
Example config_path_examples :
  config_path "/home/op" = "/home/op/.freedvtnc2.conf"
  /\ config_path "/root" = "/root/.freedvtnc2.conf"
  /\ config_path "/" = "/.freedvtnc2.conf"
  /\ config_path "//" = "//.freedvtnc2.conf"
  /\ config_path "." = ".freedvtnc2.conf"
  /\ config_path "srv/op" = "srv/op/.freedvtnc2.conf".
Proof. by_evaluation. Qed.



(* ------------------------------------------------------------------------- *)
(** ** [CLEAR] and the lock of the send queue (C2) *)

Section Clear.
Import Interleave.
Context {W : Type} {C : Collaborators W}.

Lemma lock_discipline_start (w : W) : lock_discipline (start w).
Proof.
  unfold lock_discipline, start. simpl.
  repeat split; intros; try discriminate; constructor.
Qed.

Lemma lock_discipline_step (a : action) (c c' : config W) :
  lock_discipline c -> step a c = Some c' -> lock_discipline c'.
Proof.
  unfold lock_discipline. intros (Hc & Hp & Hs) H.
  destruct c as [w l p q o]. simpl in *.
  destruct a; simpl in H; unfold clearer_step in H; simpl in H;
    try destruct (clear w) as [[u|e] w1];
    destruct l as [[|]|], p, q; simpl in *;
    try discriminate H; inversion H; subst; clear H; simpl;
    try rewrite Forall_app;
    repeat split; try assumption; try tauto; try congruence;
    try (intros X; try discriminate X);
    try (repeat constructor; simpl);
    try (destruct Hc as [Hc1 Hc2]; destruct Hp as [Hp1 Hp2];
         first [ discriminate (Hc1 eq_refl) | discriminate (Hp1 eq_refl)
               | discriminate (Hc2 eq_refl) | discriminate (Hp2 eq_refl) ]).
Qed.

Lemma lock_discipline_run (schedule : list action) (c c' : config W) :
  lock_discipline c -> run schedule c = Some c' -> lock_discipline c'.
Proof.
  revert c. induction schedule as [|a rest IH]; simpl; intros c Hc H.
  - inversion H; subst. exact Hc.
  - destruct (step a c) as [c1|] eqn:E; [|discriminate].
    eauto using lock_discipline_step.
Qed.

(** Run alone, the steps of the clearer do what [_cmd_clear] does. *)
Lemma clearer_alone (s : Server W) :
  exists n c r s',
    run (repeat ClearerStep n) (start (devs s)) = Some c
    /\ _cmd_clear s = (Ret r, s')
    /\ clearer c = Returned r /\ world c = devs s' /\ lock c = None.
Proof.
  destruct (clear (devs s)) as [[u|e] w1] eqn:E.
  - exists 4%nat. unfold _cmd_clear, Run.try_except, Run.bind, Run.call,
      Run.update, Run.ret. simpl. unfold clearer_step. simpl. rewrite E. simpl.
    eexists _, _, _. repeat split.
  - exists 1%nat. unfold _cmd_clear, Run.try_except, Run.bind, Run.call,
      Run.update, Run.ret, any_exception. simpl. unfold clearer_step. simpl.
    rewrite E. simpl. eexists _, _, _. repeat split.
Qed.

End Clear.

(** C2, as stated, fails.  On the reference rig the device's [clear] has run
    and the lock is free: the peer takes the lock and sees the buffer of the
    device empty with both frames still in the send queue. *)
Lemma clear_not_atomic :
  ~ (forall schedule c,
       Interleave.run schedule (Interleave.start Rig.idle) = Some c ->
       Forall (fun o => Interleave.between (snd o) = false) (Interleave.seen c))
  /\ exists c w,
       Interleave.run
         [Interleave.ClearerStep; Interleave.PeerAcquire; Interleave.PeerObserve]
         (Interleave.start Rig.idle) = Some c
       /\ Interleave.seen c = [(w, Interleave.AtAcquire)]
       /\ Rig.rig_buffer w = []
       /\ Rig.rig_queue w = ["frame1"; "frame2"].
Proof.
  split.
  - intros H.
    specialize (H [Interleave.ClearerStep; Interleave.PeerAcquire;
                   Interleave.PeerObserve] _ eq_refl).
    simpl in H. inversion H as [|? ? Hb _]. discriminate Hb.
  - eexists _, _. repeat split.
Qed.

(** C2, amended.  In every run of [_cmd_clear] next to a thread that uses the
    queue under its lock: the clearer holds the lock whenever it is about to
    empty the queue, the peer is never inside its locked section while the
    clearer is inside the [with] block, and nothing the peer saw was seen
    while the clearer was inside it.  The device's [clear] comes before the
    lock is taken: what lies between it and the emptying of the queue is not
    covered. *)
Theorem clear_empties_under_lock
  (W : Type) (C : Collaborators W) (w0 : W)
  (schedule : list Interleave.action) (c : Interleave.config W) :
  Interleave.run schedule (Interleave.start w0) = Some c ->
  (Interleave.clearer c = Interleave.AtEmpty ->
   Interleave.lock c = Some Interleave.Clearer)
  /\ (Interleave.peer c = Interleave.Inside ->
      Interleave.in_with_block (Interleave.clearer c) = false)
  /\ Forall (fun o => Interleave.in_with_block (snd o) = false)
            (Interleave.seen c).
Proof.
  intros H.
  destruct (lock_discipline_run schedule _ _ (lock_discipline_start w0) H)
    as (Hc & Hp & Hs).
  repeat split; auto.
  - intros E. apply Hc. now rewrite E.
  - intros E. apply Hp in E.
    destruct (Interleave.in_with_block (Interleave.clearer c)) eqn:B;
      [|reflexivity].
    assert (Hl : Interleave.lock c = Some Interleave.Clearer) by now apply Hc.
    congruence.
Qed.

Lemma clear_empties_under_lock_witness :
  exists c,
    Interleave.run
      [Interleave.ClearerStep; Interleave.PeerAcquire; Interleave.PeerObserve;
       Interleave.PeerRelease; Interleave.ClearerStep]
      (Interleave.start Rig.idle) = Some c
    /\ Interleave.clearer c = Interleave.AtEmpty
    /\ Interleave.lock c = Some Interleave.Clearer
    /\ Forall (fun o => Interleave.in_with_block (snd o) = false)
              (Interleave.seen c).
Proof.
  eexists. split; [reflexivity|]. split; [reflexivity|].
  pose proof (clear_empties_under_lock Rig.t _ Rig.idle
                [Interleave.ClearerStep; Interleave.PeerAcquire;
                 Interleave.PeerObserve; Interleave.PeerRelease;
                 Interleave.ClearerStep]
                _ eq_refl) as (Hlock & _ & Hseen).
  split; [apply Hlock; reflexivity | exact Hseen].
Defined.

(* ========================================================================= *)
(** * More of the server

    What follows covers the code that the statements above leave aside: the
    rest of the handlers, the framing of a connection and the listener. *)

(* ------------------------------------------------------------------------- *)
(** ** Setting and asking *)

Section Settings.
Context {W : Type} {C : Collaborators W}.

Lemma process_command_parts line verb a (s : Server W) :
  PyStr.split1 line = [verb; a] ->
  _process_command line s =
  Run.try_except any_exception (dispatch (PyStr.upper verb) (PyStr.upper a))
    (fun e => Run.ret ("ERROR " ++ exc_msg e)) s.
Proof.
  intros Hs. apply process_command_dispatch.
  rewrite verb_arg_upper, Hs. reflexivity.
Qed.

Lemma dispatch_follow (arg : string) : dispatch "FOLLOW" arg = _cmd_follow arg.
Proof. reflexivity. Qed.

Lemma argument_not_empty line verb a :
  PyStr.split1 line = [verb; a] -> PyStr.is_empty (PyStr.upper a) = false.
Proof.
  intros Hs. rewrite is_empty_upper. apply begins_word_not_empty.
  eapply split1_second; eassumption.
Qed.

(** X1.  [FOLLOW ON] and [FOLLOW OFF], in any case of the letters, set the
    [follow] option to the flag and answer [OK FOLLOW ON] or [OK FOLLOW OFF],
    and the [FOLLOW] query that follows answers the same; any other argument
    is answered with the error and changes nothing. *)
Theorem follow_set_then_query (s : Server W) (line verb a : string) :
  PyStr.split1 line = [verb; a] -> PyStr.upper verb = "FOLLOW" ->
  let set b := mkServer (devs s) (PyDict.set "follow" (PyVal.VBool b) (options s))
                 (valid_modes s) in
  (PyStr.upper a = "ON" ->
     _process_command line s = (Ret "OK FOLLOW ON", set true)
     /\ _process_command "FOLLOW" (set true) = (Ret "OK FOLLOW ON", set true))
  /\ (PyStr.upper a = "OFF" ->
     _process_command line s = (Ret "OK FOLLOW OFF", set false)
     /\ _process_command "FOLLOW" (set false) = (Ret "OK FOLLOW OFF", set false))
  /\ (PyStr.upper a <> "ON" -> PyStr.upper a <> "OFF" ->
     _process_command line s
     = (Ret "ERROR Invalid follow state. Use: ON or OFF", s)).
Proof.
  intros Hs Hverb set.
  pose proof (argument_not_empty _ _ _ Hs) as Hne.
  rewrite (process_command_parts _ _ _ _ Hs), Hverb, dispatch_follow.
  assert (Hq : forall b, _process_command "FOLLOW" (set b)
                 = (Ret ("OK FOLLOW " ++ if b then "ON" else "OFF"), set b)).
  { intros b. rewrite (process_command_dispatch _ "FOLLOW" "") by reflexivity.
    rewrite dispatch_follow. unfold Run.try_except, _cmd_follow, Run.bind, Run.getopt.
    simpl. rewrite get_set_same. now destruct b. }
  unfold Run.try_except, _cmd_follow. rewrite Hne, upper_idem.
  split; [|split].
  - intros ->. split; [reflexivity | apply (Hq true)].
  - intros ->. split; [reflexivity | apply (Hq false)].
  - intros H1 H2. apply String.eqb_neq in H1, H2. now rewrite H1, H2.
Qed.

(** X2.  Whatever [VOLUME] line is accepted, the [VOLUME] query that follows
    answers with the very same response; the value stored in the options is
    the float that [float] reads in the argument as the handler receives it,
    which is the client's text in upper case. *)
Theorem volume_set_then_query (s s1 : Server W) (line verb a r : string) :
  PyStr.split1 line = [verb; a] -> PyStr.upper verb = "VOLUME" ->
  _process_command line s = (Ret r, s1) -> PyStr.starts_with "OK" r = true ->
  _process_command "VOLUME" s1 = (Ret r, s1)
  /\ exists x, PyFloat.of_string (PyStr.upper a) = Some x
       /\ PyDict.get "output_volume" (options s1) = Some (PyVal.VFloat x)
       /\ r = "OK VOLUME " ++ PyFloat.repr x.
Proof.
  intros Hs Hverb H Hok.
  pose proof (argument_not_empty _ _ _ Hs) as Hne.
  rewrite (process_command_parts _ _ _ _ Hs), Hverb, dispatch_volume in H.
  unfold Run.try_except, _cmd_volume, float_of in H.
  rewrite Hne in H.
  destruct (PyFloat.of_string (PyStr.upper a)) as [x|] eqn:Hx.
  - run_cases; try discriminate Hok.
    split.
    + rewrite (process_command_dispatch _ "VOLUME" "") by reflexivity.
      rewrite dispatch_volume.
      unfold Run.try_except. erewrite cmd_volume_query by apply get_set_same.
      reflexivity.
    + exists x. repeat split. apply get_set_same.
  - simpl in H. run_cases; discriminate Hok.
Qed.

(** X3.  A line that only asks changes nothing, neither in the server nor in
    the collaborators: [PING], [STATUS], [LEVELS], a [MODE], [VOLUME] or
    [FOLLOW] without argument, a [PTT] that is not [PTT TEST], an unknown verb
    and the empty line. *)
Theorem queries_change_nothing (line : string) (s : Server W) :
  match verb_arg (PyStr.split1 (PyStr.upper line)) with
  | Some (cmd, arg) => is_query cmd arg = true
  | None => True
  end ->
  snd (_process_command line s) = s.
Proof.
  unfold _process_command.
  destruct (verb_arg (PyStr.split1 (PyStr.upper line))) as [[cmd arg]|];
    [|reflexivity].
  unfold is_query, verbs. intros Hq.
  unfold Run.try_except, dispatch, any_exception.
  destruct (String.eqb_spec cmd "PING") as [->|_]; [reflexivity|].
  destruct (String.eqb_spec cmd "MODE") as [->|_].
  { destruct (PyStr.is_empty arg) eqn:E; [|discriminate Hq].
    unfold _cmd_mode. rewrite E. reflexivity. }
  destruct (String.eqb_spec cmd "VOLUME") as [->|_].
  { destruct (PyStr.is_empty arg) eqn:E; [|discriminate Hq].
    unfold _cmd_volume, Run.bind, Run.getopt. rewrite E.
    destruct (PyDict.get "output_volume" (options s)); reflexivity. }
  destruct (String.eqb_spec cmd "FOLLOW") as [->|_].
  { destruct (PyStr.is_empty arg) eqn:E; [|discriminate Hq].
    unfold _cmd_follow, Run.bind, Run.getopt. rewrite E.
    destruct (PyDict.get "follow" (options s)); reflexivity. }
  destruct (String.eqb_spec cmd "STATUS") as [->|_].
  { unfold _cmd_status, flag, Run.bind, Run.getopt, Run.read, Run.ret.
    destruct (PyDict.get "output_volume" (options s)); [|reflexivity].
    destruct (PyDict.get "follow" (options s)); reflexivity. }
  destruct (String.eqb_spec cmd "LEVELS") as [->|_].
  { unfold _cmd_levels, Run.try_except, Run.bind, Run.attempt, any_exception.
    destruct (input_level (devs s)); reflexivity. }
  destruct (String.eqb_spec cmd "PTT") as [->|_].
  { destruct (String.eqb arg "TEST"); [discriminate Hq | reflexivity]. }
  destruct (String.eqb_spec cmd "CLEAR") as [->|_]; [discriminate Hq|].
  destruct (String.eqb_spec cmd "SAVE") as [->|_]; [discriminate Hq|].
  reflexivity.
Qed.

(** X4.  A line answered with [ERROR] leaves the options as they were: the
    options follow the modem and the device only when the command went
    through. *)
Theorem error_keeps_options (line r : string) (s s' : Server W) :
  _process_command line s = (Ret r, s') ->
  PyStr.starts_with "ERROR" r = true ->
  options s' = options s /\ valid_modes s' = valid_modes s.
Proof.
  intros H Herr. unfold_handlers H.
  destruct (verb_arg (PyStr.split1 (PyStr.upper line))) as [[cmd arg]|].
  - run_cases; simpl in *; try discriminate Herr; auto.
  - run_cases. auto.
Qed.

(** X5.  No line takes the [mode] option out of the valid-mode set, and none
    makes the [follow] option anything but a flag: when they are so before a
    command, they are so after it, whatever the command and its outcome. *)
Theorem options_stay_typed (line : string) (s s' : Server W) (o : outcome string) :
  _process_command line s = (o, s') ->
  ((exists m, PyDict.get "mode" (options s) = Some (PyVal.VStr m)
              /\ In m (valid_modes s)) ->
   exists m, PyDict.get "mode" (options s') = Some (PyVal.VStr m)
             /\ In m (valid_modes s'))
  /\ ((exists b, PyDict.get "follow" (options s) = Some (PyVal.VBool b)) ->
      exists b, PyDict.get "follow" (options s') = Some (PyVal.VBool b)).
Proof.
  intros H. unfold_handlers H.
  destruct (verb_arg (PyStr.split1 (PyStr.upper line))) as [[cmd arg]|].
  - run_cases; simpl; split; intros Hi;
      rewrite ?get_set_same, ?get_set_other by discriminate; eauto;
      try match goal with
      | E : negb (PyStr.mem ?m _) = false |- _ =>
          apply negb_false_iff, mem_In in E; eauto
      end;
      try (destruct Hi as (b & Hb); exists b; congruence).
  - run_cases. auto.
Qed.

(** X6.  [STATUS] agrees with the three queries: when [MODE], [VOLUME] and
    [FOLLOW] are answered [x], [y] and [z], [STATUS] is answered with
    [MODE=x VOLUME=y FOLLOW=z] and the two flags of the device. *)
Theorem status_agrees_with_queries (s : Server W) (x y z : string) :
  _process_command "MODE" s = (Ret ("OK MODE " ++ x), s) ->
  _process_command "VOLUME" s = (Ret ("OK VOLUME " ++ y), s) ->
  _process_command "FOLLOW" s = (Ret ("OK FOLLOW " ++ z), s) ->
  _process_command "STATUS" s
  = (Ret ("OK STATUS MODE=" ++ x ++ " VOLUME=" ++ y ++ " FOLLOW=" ++ z
            ++ " PTT=" ++ match ptt (devs s) with
                          | Some true => "ON"
                          | Some false | None => "OFF"
                          end
            ++ " CHANNEL=" ++ match inhibit (devs s) with
                              | Some true => "BUSY"
                              | Some false | None => "CLEAR"
                              end), s).
Proof.
  rewrite (process_command_dispatch "MODE" "MODE" "") by reflexivity.
  rewrite (process_command_dispatch "VOLUME" "VOLUME" "") by reflexivity.
  rewrite (process_command_dispatch "FOLLOW" "FOLLOW" "") by reflexivity.
  rewrite (process_command_dispatch "STATUS" "STATUS" "") by reflexivity.
  change (dispatch "MODE" "") with (_cmd_mode (W := W) "").
  change (dispatch "VOLUME" "") with (_cmd_volume (W := W) "").
  change (dispatch "FOLLOW" "") with (_cmd_follow (W := W) "").
  change (dispatch "STATUS" "") with (_cmd_status (W := W)).
  unfold Run.try_except, _cmd_mode, _cmd_volume, _cmd_follow, _cmd_status, flag,
    Run.bind, Run.read, Run.getopt, Run.ret, any_exception. simpl.
  intros Hm Hv Hf.
  destruct (PyDict.get "output_volume" (options s)) as [v|]; [|discriminate Hv].
  destruct (PyDict.get "follow" (options s)) as [f|]; [|discriminate Hf].
  inversion Hm as [Hx]. inversion Hv as [Hy]. inversion Hf as [Hz].
  rewrite Hx, Hy, Hz.
  destruct (ptt (devs s)) as [[|]|]; destruct (inhibit (devs s)) as [[|]|];
    reflexivity.
Qed.
Lemma lstrip_blank (t : string) : all_space t = true -> PyStr.lstrip t = "".
Proof.
  induction t as [|c t IH]; simpl; [reflexivity|].
  intros H. apply andb_prop in H as [-> H]. auto.
Qed.

Lemma append_empty (t : string) : t ++ "" = t.
Proof. induction t as [|c t IH]; simpl; [reflexivity|]. now rewrite IH. Qed.

Lemma split1_bare (lead verb trail : string) :
  all_space lead = true -> is_word verb = true -> all_space trail = true ->
  PyStr.split1 (lead ++ verb ++ trail) = [verb].
Proof.
  intros Hl Hv Ht. unfold PyStr.split1.
  apply andb_prop in Hv as [Hv1 Hv2].
  rewrite lstrip_all_space by assumption.
  assert (Hb : begins_word (verb ++ trail) = true).
  { destruct verb as [|c v]; [discriminate|]. simpl in *.
    now apply andb_prop in Hv2 as [-> _]. }
  rewrite (lstrip_begins_word _ Hb).
  destruct (verb ++ trail) as [|c0 t0] eqn:E; [discriminate|].
  rewrite <- E, take_word_app; auto.
  - now rewrite lstrip_blank.
  - destruct trail as [|d t]; [reflexivity|]. simpl in *.
    apply andb_prop in Ht as [-> _]. reflexivity.
Qed.

(** X7.  The whitespace before the verb and the length and kind of the
    whitespace between the verb and its argument do not matter, nor does the
    whitespace after a verb that has no argument. *)
Theorem spacing_is_ignored (lead verb gap a trail : string) (s : Server W) :
  all_space lead = true -> is_word verb = true ->
  all_space gap = true -> PyStr.is_empty gap = false ->
  begins_word a = true -> all_space trail = true ->
  _process_command (lead ++ verb ++ gap ++ a) s
  = _process_command (verb ++ " " ++ a) s
  /\ _process_command (lead ++ verb ++ trail) s = _process_command verb s.
Proof.
  intros Hl Hv Hg Hne Ha Ht. unfold _process_command.
  rewrite !split1_upper.
  rewrite split1_verb_arg by assumption.
  assert (Hone : PyStr.split1 (verb ++ " " ++ a) = [verb; a])
    by exact (split1_verb_arg "" verb " " a eq_refl Hv eq_refl eq_refl Ha).
  rewrite Hone.
  rewrite split1_bare by assumption.
  assert (Hb : PyStr.split1 verb = [verb]).
  { rewrite <- (append_empty verb) at 1.
    exact (split1_bare "" verb "" eq_refl Hv eq_refl). }
  rewrite Hb. auto.
Qed.



(** X9.  [CLEAR], whatever follows the verb on the line, answers [OK CLEAR]
    after the device's [clear] has returned and the send queue has been
    emptied, or answers [ERROR Clear failed: ...] with the message of the
    exception that [clear] raised, and then the queue has not been assigned.
    The queue is read back as assigned. *)
Theorem clear_then_queue_empty (line arg r : string) (s s' : Server W) :
  (forall q w, send_queue (set_send_queue q w) = q) ->
  verb_arg (PyStr.split1 (PyStr.upper line)) = Some ("CLEAR", arg) ->
  _process_command line s = (Ret r, s') ->
  (r = "OK CLEAR" /\ send_queue (devs s') = []
   /\ exists w', clear (devs s) = (Ret tt, w') /\ devs s' = set_send_queue [] w')
  \/ (exists e, clear (devs s) = (Raise e, devs s')
                /\ r = "ERROR Clear failed: " ++ exc_msg e).
Proof.
  intros Hlaw Hva H.
  rewrite (process_command_dispatch _ _ _ _ Hva) in H.
  change (dispatch "CLEAR" arg) with (_cmd_clear (W := W)) in H.
  unfold _cmd_clear, any_exception in H. run_cases; simpl in *.
  - left. repeat split; auto.
    match goal with u : unit |- _ => destruct u end. eauto.
  - right. eauto.
Qed.
(** X20.  When the number is read but the output device refuses it,
    [VOLUME] answers with an error and the [output_volume] option is not
    touched: the error is [Invalid volume (must be number in dB)] when the
    device raised a [ValueError], and [ERROR] with the message of the
    exception otherwise. *)
Theorem volume_device_refuses
  (s : Server W) (line verb a : string) (x : PyFloat.t) (e : exn) (w' : W) :
  PyStr.split1 line = [verb; a] -> PyStr.upper verb = "VOLUME" ->
  PyFloat.of_string a = Some x -> set_db x (devs s) = (Raise e, w') ->
  _process_command line s
  = (Ret (if is_value_error e
          then "ERROR Invalid volume (must be number in dB)"
          else "ERROR " ++ exc_msg e),
     mkServer w' (options s) (valid_modes s)).
Proof.
  intros Hs Hverb Hx Hset.
  pose proof (argument_not_empty _ _ _ Hs) as Hne.
  rewrite (process_command_parts _ _ _ _ Hs), Hverb, dispatch_volume.
  unfold _cmd_volume, float_of. rewrite Hne, of_string_upper, Hx.
  unfold Run.try_except, Run.bind, Run.ret, Run.call, any_exception.
  rewrite Hset. destruct (is_value_error e); reflexivity.
Qed.

End Settings.

Lemma follow_set_then_query_witness :
  _process_command "follow on" Rig.server
  = (Ret "OK FOLLOW ON",
     mkServer (devs Rig.server)
       (PyDict.set "follow" (PyVal.VBool true) (options Rig.server))
       (valid_modes Rig.server))
  /\ _process_command "FOLLOW"
       (mkServer (devs Rig.server)
          (PyDict.set "follow" (PyVal.VBool true) (options Rig.server))
          (valid_modes Rig.server))
     = (Ret "OK FOLLOW ON",
        mkServer (devs Rig.server)
          (PyDict.set "follow" (PyVal.VBool true) (options Rig.server))
          (valid_modes Rig.server)).
Proof.
  pose proof (follow_set_then_query (W := Rig.t) Rig.server
                "follow on" "follow" "on" eq_refl eq_refl) as H.
  cbv zeta in H. destruct H as (Hon & _ & _). exact (Hon eq_refl).
Defined.

Lemma volume_set_then_query_witness :
  _process_command "VOLUME" (snd (_process_command "volume 1e3" Rig.server))
  = (Ret "OK VOLUME 1000.0", snd (_process_command "volume 1e3" Rig.server))
  /\ exists x,
       PyFloat.of_string (PyStr.upper "1e3") = Some x
       /\ PyDict.get "output_volume"
            (options (snd (_process_command "volume 1e3" Rig.server)))
          = Some (PyVal.VFloat x)
       /\ "OK VOLUME 1000.0" = "OK VOLUME " ++ PyFloat.repr x.
Proof.
  apply (volume_set_then_query (W := Rig.t) Rig.server _
           "volume 1e3" "volume" "1e3" "OK VOLUME 1000.0");
    vm_compute; reflexivity.
Defined.

Lemma queries_change_nothing_witness :
  snd (_process_command "status" Rig.server) = Rig.server
  /\ snd (_process_command "ptt now" Rig.server) = Rig.server.
Proof.
  split.
  - apply (queries_change_nothing (W := Rig.t) "status" Rig.server).
    reflexivity.
  - apply (queries_change_nothing (W := Rig.t) "ptt now" Rig.server).
    reflexivity.
Defined.

Lemma error_keeps_options_witness :
  options (snd (_process_command "mode datac3" Rig.broken))
  = options Rig.broken
  /\ valid_modes (snd (_process_command "mode datac3" Rig.broken))
     = valid_modes Rig.broken.
Proof.
  apply (error_keeps_options (W := Rig.t) "mode datac3"
           "ERROR modem not responding" Rig.broken
           (snd (_process_command "mode datac3" Rig.broken)));
    reflexivity.
Defined.

Lemma options_stay_typed_witness :
  exists m,
    PyDict.get "mode"
      (options (snd (_process_command "mode datac3" Rig.server)))
    = Some (PyVal.VStr m)
    /\ In m (valid_modes (snd (_process_command "mode datac3" Rig.server))).
Proof.
  refine (proj1 (options_stay_typed (W := Rig.t) "mode datac3" Rig.server
                   (snd (_process_command "mode datac3" Rig.server))
                   (Ret "OK MODE DATAC3") _) _).
  - vm_compute. reflexivity.
  - exists "DATAC1". split; [reflexivity | simpl; tauto].
Defined.

Lemma status_agrees_with_queries_witness :
  _process_command "STATUS" Rig.server
  = (Ret "OK STATUS MODE=DATAC1 VOLUME=0 FOLLOW=OFF PTT=OFF CHANNEL=CLEAR",
     Rig.server).
Proof.
  exact (status_agrees_with_queries (W := Rig.t) Rig.server "DATAC1" "0" "OFF"
           eq_refl eq_refl eq_refl).
Defined.

Lemma spacing_is_ignored_witness :
  _process_command ("  mode" ++ String "009" "  datac3") Rig.server
  = _process_command "mode datac3" Rig.server
  /\ _process_command "  mode   " Rig.server = _process_command "mode" Rig.server.
Proof.
  exact (spacing_is_ignored (W := Rig.t) "  " "mode" (String "009" "  ")
           "datac3" "   " Rig.server
           eq_refl eq_refl eq_refl eq_refl eq_refl eq_refl).
Defined.


Lemma clear_then_queue_empty_witness :
  ("OK CLEAR" = "OK CLEAR"
   /\ send_queue (devs (snd (_process_command "clear now" Rig.server))) = []
   /\ exists w',
        clear (devs Rig.server) = (Ret tt, w')
        /\ devs (snd (_process_command "clear now" Rig.server))
           = set_send_queue [] w')
  \/ (exists e,
        clear (devs Rig.server)
        = (Raise e, devs (snd (_process_command "clear now" Rig.server)))
        /\ "OK CLEAR" = "ERROR Clear failed: " ++ exc_msg e).
Proof.
  apply (clear_then_queue_empty (W := Rig.t) "clear now" "NOW" "OK CLEAR"
           Rig.server (snd (_process_command "clear now" Rig.server))).
  - intros q w. reflexivity.
  - reflexivity.
  - reflexivity.
Defined.

Lemma volume_device_refuses_witness :
  _process_command "volume 3" Rig.broken
  = (Ret "ERROR modem not responding", Rig.broken).
Proof.
  exact (volume_device_refuses (W := Rig.t) Rig.broken "volume 3" "volume" "3"
           (PyFloat.Fin false 6755399441055744 (-51))
           (mkExn OtherException "modem not responding") (devs Rig.broken)
           eq_refl eq_refl eq_refl eq_refl).
Defined.

Section Release.
Import Interleave.
Context {W : Type} {C : Collaborators W}.

Lemma queue_guarded_step (a : action) (c c' : config W) :
  (forall q w, send_queue (set_send_queue q w) = q) ->
  lock_discipline c -> queue_guarded c -> step a c = Some c' -> queue_guarded c'.
Proof.
  unfold lock_discipline, queue_guarded. intros Hlaw (Hc & Hp & _) Hq H.
  destruct c as [w l p q o]. simpl in *.
  destruct a; simpl in H; unfold clearer_step in H; simpl in H.
  - destruct p; simpl in *.
    + destruct (clear w) as [[u|e] w1]; inversion H; subst; simpl; discriminate.
    + destruct l; [discriminate|]. inversion H; subst; simpl; discriminate.
    + inversion H; subst; simpl. intros _. apply Hlaw.
    + inversion H; subst; simpl; discriminate.
    + discriminate.
  - destruct q; [|discriminate]. destruct l; [discriminate|].
    inversion H; subst; simpl. exact Hq.
  - destruct q; [discriminate|]. inversion H; subst; simpl. exact Hq.
  - destruct q; [discriminate|]. inversion H; subst; simpl.
    intros E. subst p.
    assert (Hl : l = Some Clearer) by (apply Hc; reflexivity).
    assert (Hl' : l = Some Peer) by (apply Hp; reflexivity).
    congruence.
  - destruct q; [discriminate|]. inversion H; subst; simpl. exact Hq.
Qed.

(** X10.  Next to a thread that appends frames under the lock: when
    [_cmd_clear] is about to leave its [with] block the send queue is empty,
    and [_cmd_clear] never returns with the lock in its hands, on the success
    path or on the error path. *)
Theorem queue_empty_until_release (w0 : W) (schedule : list action) (c : config W) :
  (forall q w, send_queue (set_send_queue q w) = q) ->
  run schedule (start w0) = Some c ->
  (clearer c = AtRelease -> send_queue (world c) = [])
  /\ (forall r, clearer c = Returned r -> lock c <> Some Clearer).
Proof.
  intros Hlaw H.
  assert (G : forall sch c0, lock_discipline c0 -> queue_guarded c0 ->
              run sch c0 = Some c -> lock_discipline c /\ queue_guarded c).
  { induction sch as [|a rest IH]; simpl; intros c0 Hd Hq Hr.
    - inversion Hr; subst. auto.
    - destruct (step a c0) as [c1|] eqn:E; [|discriminate].
      apply (IH c1);
        [ eapply lock_discipline_step; eassumption
        | eapply queue_guarded_step; eassumption
        | assumption ]. }
  destruct (G schedule (start w0)) as [(Hc & _) Hq]; auto.
  - apply lock_discipline_start.
  - unfold queue_guarded. simpl. discriminate.
  - split; [exact Hq|]. intros r Hr Hl. apply Hc in Hl. rewrite Hr in Hl. discriminate.
Qed.
End Release.

Lemma queue_empty_until_release_witness :
  exists c,
    Interleave.run
      [Interleave.ClearerStep; Interleave.PeerAcquire;
       Interleave.PeerPush "frame3"; Interleave.PeerRelease;
       Interleave.ClearerStep; Interleave.ClearerStep]
      (Interleave.start Rig.idle) = Some c
    /\ Interleave.clearer c = Interleave.AtRelease
    /\ send_queue (Interleave.world c) = [].
Proof.
  eexists. split; [reflexivity|]. split; [reflexivity|].
  refine (proj1 (queue_empty_until_release (W := Rig.t) Rig.idle
                   [Interleave.ClearerStep; Interleave.PeerAcquire;
                    Interleave.PeerPush "frame3"; Interleave.PeerRelease;
                    Interleave.ClearerStep; Interleave.ClearerStep]
                   _ _ eq_refl) eq_refl).
  intros q w. reflexivity.
Defined.

(* ------------------------------------------------------------------------- *)
(** ** The lines of a connection *)

Section Text.
Import Link.

Lemma append_assoc (a b c : string) : (a ++ b) ++ c = a ++ b ++ c.
Proof. induction a as [|x a IH]; simpl; [reflexivity|]. now rewrite IH. Qed.

Lemma length_append (a b : string) :
  String.length (a ++ b) = (String.length a + String.length b)%nat.
Proof. induction a as [|x a IH]; simpl; [reflexivity|]. now rewrite IH. Qed.

Lemma cut_line (l rest : string) :
  cut l = None -> cut (l ++ String newline rest) = Some (l, rest).
Proof.
  induction l as [|c l IH]; simpl; intros H; [reflexivity|].
  destruct (Ascii.eqb c newline); [discriminate|].
  destruct (cut l) as [[? ?]|]; [discriminate|]. now rewrite IH.
Qed.

Lemma cut_some (b l r : string) :
  cut b = Some (l, r) ->
  b = l ++ String newline r /\ cut l = None
  /\ (String.length r < String.length b)%nat.
Proof.
  revert l r. induction b as [|c b IH]; simpl; intros l r H; [discriminate|].
  destruct (Ascii.eqb_spec c newline) as [->|Hc].
  - inversion H; subst. simpl. auto.
  - destruct (cut b) as [[l' r']|]; [|discriminate].
    inversion H; subst. destruct (IH l' r eq_refl) as (-> & Hl & Hlen).
    simpl. apply Ascii.eqb_neq in Hc. rewrite Hc, Hl. repeat split. lia.
Qed.

Lemma cut_none_app (u v : string) :
  cut u = None -> cut v = None -> cut (u ++ v) = None.
Proof.
  induction u as [|c u IH]; simpl; intros Hu Hv; [exact Hv|].
  destruct (Ascii.eqb c newline); [discriminate|].
  destruct (cut u) as [[? ?]|]; [discriminate|]. now rewrite IH.
Qed.
Lemma lstrip_empty_blank (t : string) : PyStr.lstrip t = "" -> all_space t = true.
Proof.
  induction t as [|c t IH]; simpl; [reflexivity|].
  destruct (PyStr.is_space c); [auto | discriminate].
Qed.

Lemma lstrip_app (l t : string) :
  PyStr.lstrip l <> "" -> PyStr.lstrip (l ++ t) = PyStr.lstrip l ++ t.
Proof.
  induction l as [|c l IH]; simpl; intros H; [congruence|].
  destruct (PyStr.is_space c); [auto | reflexivity].
Qed.

Lemma rstrip_blank (t : string) : all_space t = true -> rstrip t = "".
Proof.
  induction t as [|c t IH]; simpl; [reflexivity|].
  intros H. apply andb_prop in H as [Hc H]. now rewrite IH, Hc.
Qed.

Lemma rstrip_app_blank (x t : string) :
  all_space t = true -> rstrip (x ++ t) = rstrip x.
Proof.
  intros Ht. induction x as [|c x IH]; simpl; [now apply rstrip_blank|].
  now rewrite IH.
Qed.

Lemma strip_blank (t : string) : all_space t = true -> strip t = "".
Proof. intros H. unfold strip. now rewrite lstrip_blank. Qed.

Lemma strip_surround (lead l trail : string) :
  all_space lead = true -> all_space trail = true ->
  strip (lead ++ l ++ trail) = strip l.
Proof.
  intros Hl Ht. unfold strip. rewrite lstrip_all_space by assumption.
  destruct (PyStr.lstrip l) as [|c r] eqn:E.
  - apply lstrip_empty_blank in E.
    rewrite lstrip_blank; [reflexivity|].
    clear - E Ht. induction l as [|c l IH]; simpl in *; [assumption|].
    apply andb_prop in E as [-> E]. auto.
  - rewrite lstrip_app by congruence. rewrite E. now apply rstrip_app_blank.
Qed.
End Text.

Section Framing.
Import Link.
Context {W : Type} {C : Collaborators W} {K : Type} {L : Connection K}.

Lemma drain_loop_fuel (n m : nat) (b : string) (s : Server W) (k : K) :
  (String.length b <= n)%nat -> (String.length b <= m)%nat ->
  drain_loop n b s k = drain_loop m b s k.
Proof.
  revert m b s k. induction n as [|n IH]; intros m b s k Hn Hm.
  - destruct b; [|simpl in Hn; lia]. destruct m; reflexivity.
  - destruct m as [|m].
    + destruct b; [reflexivity | simpl in Hm; lia].
    + simpl. destruct (cut b) as [[l r]|] eqn:E; [|reflexivity].
      apply cut_some in E as (_ & _ & Hlen).
      destruct (respond l s k) as [[[u|e] s1] k1]; [|reflexivity].
      apply IH; lia.
Qed.

(** X11.  The inner loop of a connection: a buffer without a line feed is
    left as it is and nothing is done; a buffer that begins with a line and
    its line feed has that line answered first and the rest of the buffer
    treated next, and when answering the line raises (the send failed), the
    rest is not looked at. *)
Theorem drain_lines (s : Server W) (k : K) :
  (forall b, cut b = None -> drain b s k = (Ret b, s, k))
  /\ (forall l rest, cut l = None ->
        drain (l ++ String newline rest) s k
        = match respond l s k with
          | (Ret _, s', k') => drain rest s' k'
          | (Raise e, s', k') => (Raise e, s', k')
          end).
Proof.
  split.
  - intros b H. unfold drain. destruct (String.length b); simpl; now rewrite H.
  - intros l rest H. unfold drain.
    rewrite length_append. simpl String.length.
    replace (String.length l + S (String.length rest))%nat
      with (S (String.length l + String.length rest)) by lia.
    simpl. rewrite (cut_line _ _ H).
    destruct (respond l s k) as [[[u|e] s1] k1]; [|reflexivity].
    apply drain_loop_fuel; lia.
Qed.
Lemma drain_cut (b l r : string) (s : Server W) (k : K) :
  cut b = Some (l, r) ->
  drain b s k = match respond l s k with
                | (Ret _, s', k') => drain r s' k'
                | (Raise e, s', k') => (Raise e, s', k')
                end.
Proof.
  intros H. apply cut_some in H as (-> & Hl & _).
  now apply (proj2 (drain_lines s k)).
Qed.

(** X12.  How the text arrives does not matter to the inner loop: treating
    [u ++ v] at once is treating [u], and then what [u] left in the buffer
    followed by [v]. *)
Theorem drain_app (u v : string) (s : Server W) (k : K) :
  drain (u ++ v) s k
  = match drain u s k with
    | (Ret b, s', k') => drain (b ++ v) s' k'
    | (Raise e, s', k') => (Raise e, s', k')
    end.
Proof.
  remember (String.length u) as n eqn:Hn.
  assert (Hle : (String.length u <= n)%nat) by lia. clear Hn.
  revert u s k Hle. induction n as [|n IH]; intros u s k Hle.
  - destruct u; [|simpl in Hle; lia].
    rewrite (proj1 (drain_lines s k) "" eq_refl). reflexivity.
  - destruct (cut u) as [[l r]|] eqn:E.
    + pose proof (cut_some _ _ _ E) as (-> & Hl & Hlen).
      rewrite append_assoc.
      change (String newline r ++ v) with (String newline (r ++ v)).
      rewrite (proj2 (drain_lines s k) l (r ++ v) Hl).
      rewrite (proj2 (drain_lines s k) l r Hl).
      destruct (respond l s k) as [[[x|e] s1] k1]; [|reflexivity].
      apply IH. rewrite length_append in Hle. simpl in *. lia.
    + now rewrite (proj1 (drain_lines s k) u E).
Qed.

(** X13.  What the inner loop leaves in the buffer has no line feed: it is
    the unfinished line, and only text that arrives later can complete it. *)
Theorem drain_leftover (u b : string) (s s' : Server W) (k k' : K) :
  drain u s k = (Ret b, s', k') -> cut b = None.
Proof.
  remember (String.length u) as n eqn:Hn.
  assert (Hle : (String.length u <= n)%nat) by lia. clear Hn.
  revert u s k Hle. induction n as [|n IH]; intros u s k Hle H.
  - destruct u; [|simpl in Hle; lia].
    rewrite (proj1 (drain_lines s k) "" eq_refl) in H. now inversion H.
  - destruct (cut u) as [[l r]|] eqn:E.
    + rewrite (drain_cut _ _ _ _ _ E) in H.
      apply cut_some in E as (-> & _ & _).
      destruct (respond l s k) as [[[x|e] s1] k1]; [|discriminate].
      eapply IH; [|eassumption]. rewrite length_append in Hle. simpl in *. lia.
    + rewrite (proj1 (drain_lines s k) u E) in H. inversion H; subst. exact E.
Qed.
Lemma process_command_returns (line : string) (s : Server W) :
  exists r s', _process_command line s = (Ret r, s') /\ well_formed r = true.
Proof.
  unfold _process_command.
  destruct (verb_arg (PyStr.split1 (PyStr.upper line))) as [[cmd arg]|].
  - unfold Run.try_except, any_exception.
    destruct (dispatch cmd arg s) as [[r|e] s1] eqn:E.
    + exists r, s1. split; [reflexivity | eapply dispatch_shape; eassumption].
    + eexists _, s1. split; reflexivity.
  - eexists _, s. split; reflexivity.
Qed.

(** X14.  The whitespace around a line, the carriage return of a CRLF ending
    included, does not change how the line is answered, and a line of
    whitespace alone is passed over: nothing is dispatched and nothing is
    sent. *)
Theorem respond_blank_and_spacing (line lead trail : string) (s : Server W) (k : K) :
  all_space lead = true -> all_space trail = true ->
  respond (lead ++ line ++ trail) s k = respond line s k
  /\ (all_space line = true -> respond line s k = (Ret tt, s, k)).
Proof.
  intros Hl Ht. unfold respond. rewrite strip_surround by assumption.
  split; [reflexivity|]. intros Hb. now rewrite strip_blank.
Qed.

(** X15.  A line that is not blank is answered with one send: the response of
    the dispatcher to the stripped line, which begins with [OK] or [ERROR],
    followed by a line feed; the outcome of the line is the outcome of that
    send. *)
Theorem respond_one_line (line : string) (s : Server W) (k : K) :
  PyStr.is_empty (strip line) = false ->
  exists r s',
    _process_command (strip line) s = (Ret r, s')
    /\ well_formed r = true
    /\ respond line s k
       = (fst (send (r ++ String newline "") k), s',
          snd (send (r ++ String newline "") k)).
Proof.
  intros Hne.
  destruct (process_command_returns (strip line) s) as (r & s' & Hp & Hw).
  exists r, s'. repeat split; auto.
  unfold respond. rewrite Hne, Hp.
  now destruct (send (r ++ String newline "") k).
Qed.
End Framing.

Lemma drain_lines_witness :
  Link.drain ("ping" ++ String Link.newline "mode") Rig.server (Wire.fresh [])
  = match Link.respond "ping" Rig.server (Wire.fresh []) with
    | (Ret _, s', k') => Link.drain "mode" s' k'
    | (Raise e, s', k') => (Raise e, s', k')
    end.
Proof.
  exact (proj2 (drain_lines (W := Rig.t) (K := Wire.t) Rig.server (Wire.fresh []))
           "ping" "mode" eq_refl).
Defined.

Lemma drain_leftover_witness : Link.cut "mode" = None.
Proof.
  apply (drain_leftover (W := Rig.t) (K := Wire.t)
           ("ping" ++ String Link.newline "mode") "mode" Rig.server Rig.server
           (Wire.fresh [])
           (Wire.mk [] ["OK PONG" ++ String Link.newline ""] false true None)).
  vm_compute. reflexivity.
Defined.

Lemma respond_blank_and_spacing_witness :
  Link.respond ("  ping" ++ String "013" "") Rig.server (Wire.fresh [])
  = Link.respond "ping" Rig.server (Wire.fresh [])
  /\ (all_space "ping" = true ->
      Link.respond "ping" Rig.server (Wire.fresh [])
      = (Ret tt, Rig.server, Wire.fresh [])).
Proof.
  exact (respond_blank_and_spacing (W := Rig.t) (K := Wire.t)
           "ping" "  " (String "013" "") Rig.server (Wire.fresh [])
           eq_refl eq_refl).
Defined.

Lemma respond_one_line_witness :
  exists r s',
    _process_command (Link.strip " ping ") Rig.server = (Ret r, s')
    /\ well_formed r = true
    /\ Link.respond " ping " Rig.server (Wire.fresh [])
       = (fst (Link.send (r ++ String Link.newline "") (Wire.fresh [])), s',
          snd (Link.send (r ++ String Link.newline "") (Wire.fresh []))).
Proof.
  exact (respond_one_line (W := Rig.t) (K := Wire.t) " ping " Rig.server
           (Wire.fresh []) eq_refl).
Defined.

Section OnTheWire.
Import Link.
Context {W : Type} {C : Collaborators W}.

Lemma concat_cons (c : string) (cs : list string) :
  String.concat "" (c :: cs) = c ++ String.concat "" cs.
Proof. destruct cs; simpl; [now rewrite append_empty | reflexivity]. Qed.

Lemma wire_drain (n : nat) (b : string) (s : Server W) :
  exists b' s' msgs,
    forall i o c u,
      drain_loop n b s (Wire.mk i o c u None)
      = (Ret b', s', Wire.mk i (o ++ msgs) c u None).
Proof.
  revert b s. induction n as [|n IH]; intros b s.
  - exists b, s, []. intros. rewrite app_nil_r. simpl. now destruct (cut b) as [[? ?]|].
  - simpl. destruct (cut b) as [[l r]|].
    + unfold respond. destruct (PyStr.is_empty (strip l)).
      * destruct (IH r s) as (b' & s' & msgs & H). exists b', s', msgs. exact H.
      * destruct (process_command_returns (strip l) s) as (x & s1 & Hp & _).
        rewrite Hp. destruct (IH r s1) as (b' & s' & msgs & H).
        exists b', s', ((x ++ String newline "") :: msgs). intros. simpl.
        rewrite H. now rewrite <- app_assoc.
    + exists b, s, []. intros. now rewrite app_nil_r.
Qed.

Lemma wire_serve (chunks : list string) :
  Forall (fun c => PyStr.is_empty c = false) chunks ->
  forall (fuel : nat) (buf : string) (s : Server W) (o : list string),
    (List.length chunks < fuel)%nat -> cut buf = None ->
    exists b s' msgs,
      drain (buf ++ String.concat "" (map Utf8.decode chunks)) s
        (Wire.mk [] o false true None)
      = (Ret b, s', Wire.mk [] (o ++ msgs) false true None)
      /\ serve fuel buf s (Wire.mk (map Ret chunks) o false true None)
         = (Some PeerClosed, b, s', Wire.mk [] (o ++ msgs) false true None).
Proof.
  induction 1 as [|c cs Hc Hcs IH]; intros fuel buf s o Hf Hb.
  - exists buf, s, []. rewrite app_nil_r. simpl. rewrite append_empty. split.
    + now apply drain_lines.
    + destruct fuel; [simpl in Hf; lia | reflexivity].
  - destruct fuel as [|fuel]; [simpl in Hf; lia|].
    set (d := Utf8.decode c).
    destruct (wire_drain (String.length (buf ++ d)) (buf ++ d) s)
      as (b1 & s1 & m1 & H1).
    fold (drain (buf ++ d) s) in H1.
    assert (Hb1 : cut b1 = None).
    { eapply drain_leftover. apply (H1 [] o false true). }
    destruct (IH fuel b1 s1 (o ++ m1)%list) as (b & s' & msgs & Hd & Hs);
      [simpl in Hf; lia | assumption |].
    exists b, s', (m1 ++ msgs)%list. rewrite app_assoc. split.
    + cbn [map]. fold d. rewrite concat_cons, <- append_assoc, drain_app.
      rewrite (H1 [] o false true). exact Hd.
    + cbn [serve map Wire.up running recv Wire.connection Wire.wire_recv
             Wire.inbox Wire.outbox Wire.closed Wire.send_fault negb decode].
      rewrite Hc. fold d. rewrite (H1 (map Ret cs) o false true). exact Hs.
Qed.

Lemma decode_ascii (data : string) :
  Utf8.is_ascii data = true -> Utf8.decode data = data.
Proof.
  induction data as [|a r IH]; [reflexivity|]. simpl.
  destruct (PyStr.code a <? 128); [|discriminate].
  simpl. intros H. now rewrite IH.
Qed.

Lemma decode_ascii_chunks (chunks : list string) :
  forallb Utf8.is_ascii chunks = true -> map Utf8.decode chunks = chunks.
Proof.
  induction chunks as [|c cs IH]; [reflexivity|]. simpl.
  intros H. apply andb_prop in H as [Hc Hcs].
  now rewrite decode_ascii, IH.
Qed.

(** X16.  A client that sends its bytes in chunks, none empty, and closes: on
    a socket whose sends succeed, [_handle_connection] ends normally with the
    socket closed, and what was sent and what became of the server are what
    the inner loop gives on one text, the chunks decoded one by one and put
    end to end; what follows the last line feed is never dispatched.  The cuts
    between the chunks count only through the decoding: when every byte is
    ASCII that text is the bytes as they came, whereas a character whose bytes
    fall in two chunks is dropped by the decoding of both. *)
Theorem chunks_are_decoded_apart
  (chunks : list string) (fuel : nat) (s : Server W) :
  Forall (fun c => PyStr.is_empty c = false) chunks ->
  (List.length chunks < fuel)%nat ->
  (exists b s' msgs,
      drain (String.concat "" (map Utf8.decode chunks)) s (Wire.fresh [])
      = (Ret b, s', Wire.mk [] msgs false true None)
      /\ _handle_connection fuel s (Wire.fresh chunks)
         = (Some (Ret tt), s', Wire.mk [] msgs true true None))
  /\ (forallb Utf8.is_ascii chunks = true ->
      String.concat "" (map Utf8.decode chunks) = String.concat "" chunks).
Proof.
  intros Hc Hf. split.
  - destruct (wire_serve chunks Hc fuel "" s [] Hf eq_refl)
      as (b & s' & msgs & Hd & Hs).
    exists b, s', msgs. split; [exact Hd|].
    unfold _handle_connection, Wire.fresh.
    cbn [settimeout Wire.connection close Wire.wire_close].
    unfold Wire.fresh in Hs. cbn [map] in Hs. rewrite Hs. reflexivity.
  - intros Ha. now rewrite decode_ascii_chunks.
Qed.
End OnTheWire.

Lemma chunks_are_decoded_apart_witness :
  (exists b s' msgs,
      Link.drain
        (String.concat ""
           (map Utf8.decode ["pi"; "ng" ++ String Link.newline "fol"; "low"]))
        Rig.server (Wire.fresh [])
      = (Ret b, s', Wire.mk [] msgs false true None)
      /\ Link._handle_connection 4 Rig.server
           (Wire.fresh ["pi"; "ng" ++ String Link.newline "fol"; "low"])
         = (Some (Ret tt), s', Wire.mk [] msgs true true None))
  /\ (forallb Utf8.is_ascii ["pi"; "ng" ++ String Link.newline "fol"; "low"]
      = true ->
      String.concat ""
        (map Utf8.decode ["pi"; "ng" ++ String Link.newline "fol"; "low"])
      = String.concat "" ["pi"; "ng" ++ String Link.newline "fol"; "low"]).
Proof.
  apply (chunks_are_decoded_apart (W := Rig.t)
           ["pi"; "ng" ++ String Link.newline "fol"; "low"] 4%nat Rig.server).
  - repeat constructor.
  - simpl. lia.
Defined.

(** The decoding at work.  The two bytes of one character, the degree sign
    C2 B0, arrive in one chunk and the line is answered with them; they arrive in two chunks
    and each chunk loses its half, so the line is answered without them. *)
Example cut_character_is_dropped :
  let e1 := String "194" "" in
  let e2 := String "176" "" in
  let nl := String Link.newline "" in
  Utf8.decode ("x" ++ e1 ++ e2 ++ nl) = "x" ++ e1 ++ e2 ++ nl
  /\ Utf8.decode ("x" ++ e1) = "x"
  /\ Utf8.decode (e2 ++ nl) = nl
  /\ Wire.outbox (snd (Link._handle_connection 3 Rig.server
                         (Wire.fresh ["x" ++ e1 ++ e2 ++ nl])))
     = ["ERROR Unknown command: X" ++ e1 ++ e2 ++ nl]
  /\ Wire.outbox (snd (Link._handle_connection 3 Rig.server
                         (Wire.fresh ["x" ++ e1; e2 ++ nl])))
     = ["ERROR Unknown command: X" ++ nl].
Proof. cbv zeta. by_evaluation. Qed.

(* ------------------------------------------------------------------------- *)
(** ** Starting, accepting, stopping *)

Section Accepting.
Import Life.

Lemma port_accept_loop (ticks : list accepted) :
  forallb (fun a => negb (Port.is_stop a)) ticks = true ->
  forall (extra : list accepted) (h : list nat) (l : bool) (c : nat)
         (b : option exn) (sock : bool) (a : string) (p : Z) (n : nat),
    accept_loop (List.length ticks)
      (mk true sock a p n (Port.mk (ticks ++ extra) h l c b))
    = (false,
       mk true sock a p n (Port.mk extra (h ++ Port.connections ticks) l c b)).
Proof.
  induction ticks as [|t ticks IH]; simpl; intros Ht extra h l c b sock a p n.
  - now rewrite app_nil_r.
  - apply andb_prop in Ht as [Hs Ht].
    destruct t; try discriminate Hs; unfold with_net; simpl;
      rewrite IH by assumption; try reflexivity.
    now rewrite <- app_assoc.
Qed.

(** X17.  While nobody stops the server, the accept loop goes on: after a
    script of connections, timeouts and failed accepts, every connection of
    the script has been given to a handler, in the order of arrival, no
    timeout and no failure has ended the loop, and the socket is still
    open. *)
Theorem accept_loop_serves (ticks : list accepted) :
  forallb (fun a => negb (Port.is_stop a)) ticks = true ->
  _server_loop (List.length ticks) (start (Port.fresh ticks))
  = (false,
     mk true true "0.0.0.0" 8002 1
        (Port.mk [] (Port.connections ticks) true 0 None)).
Proof.
  intros Ht. unfold _server_loop, start, Port.fresh. simpl.
  unfold with_net. simpl.
  pose proof (port_accept_loop ticks Ht [] [] true 0 None true "0.0.0.0" 8002 1)
    as H.
  rewrite app_nil_r in H. rewrite H. reflexivity.
Qed.

(** X18.  Once [stop] has been called the loop ends: the connections that
    arrived before have their handlers, none that comes after is accepted,
    the flag is down, and the socket has been closed, by [stop] and once
    more by the loop on its way out. *)
Theorem stop_ends_accepting (pre post : list accepted) (fuel : nat) :
  forallb (fun a => negb (Port.is_stop a)) pre = true ->
  (List.length pre + 2 <= fuel)%nat ->
  _server_loop fuel (start (Port.fresh (pre ++ StopCalled :: post)))
  = (true,
     mk false true "0.0.0.0" 8002 1
        (Port.mk post (Port.connections pre) false 2 None)).
Proof.
  intros Ht Hf. unfold _server_loop, start, Port.fresh. simpl.
  unfold with_net. simpl.
  assert (G : forall m extra h l c b sock a p n,
             accept_loop (List.length pre + m)
               (mk true sock a p n (Port.mk (pre ++ extra) h l c b))
             = accept_loop m
                 (mk true sock a p n
                     (Port.mk extra (h ++ Port.connections pre) l c b))).
  { clear Hf. induction pre as [|t pre IH]; simpl; intros.
    - now rewrite app_nil_r.
    - apply andb_prop in Ht as [Hs Ht].
      destruct t; try discriminate Hs; unfold with_net; simpl;
        rewrite IH by assumption; try reflexivity.
      now rewrite <- app_assoc. }
  replace fuel with (List.length pre + S (S (fuel - List.length pre - 2)))%nat
    by lia.
  rewrite G. simpl. reflexivity.
Qed.
End Accepting.

Lemma accept_loop_serves_witness :
  Life._server_loop 3
    (Life.start
       (Port.fresh
          [Life.Accepted 7; Life.TimedOut;
           Life.AcceptFailed (mkExn OtherException "reset")]))
  = (false,
     Life.mk true true "0.0.0.0" 8002 1 (Port.mk [] [7%nat] true 0 None)).
Proof.
  exact (accept_loop_serves
           [Life.Accepted 7; Life.TimedOut;
            Life.AcceptFailed (mkExn OtherException "reset")] eq_refl).
Defined.

Lemma stop_ends_accepting_witness :
  Life._server_loop 5
    (Life.start
       (Port.fresh
          ([Life.Accepted 7; Life.TimedOut]
             ++ Life.StopCalled :: [Life.Accepted 8])))
  = (true,
     Life.mk false true "0.0.0.0" 8002 1
       (Port.mk [Life.Accepted 8] [7%nat] false 2 None)).
Proof.
  apply (stop_ends_accepting [Life.Accepted 7; Life.TimedOut]
           [Life.Accepted 8] 5%nat).
  - reflexivity.
  - simpl. lia.
Defined.

Section Binding.
Import Life.
Context {N : Type} {Net : Network N}.

(** X19.  When the socket cannot be set up (the [bind] fails, say),
    [_server_loop] ends at once with the socket closed and without a call of
    [accept], and the flag that [start] raised stays up: a second [start]
    finds the server running and does nothing. *)
Theorem failed_bind_leaves_running (st : t N) (fuel : nat) (n n1 : N) (e : exn) :
  running st = false ->
  create (net st) = (Ret tt, n) ->
  listen (address st) (port st) n = (Raise e, n1) ->
  _server_loop fuel (start st)
  = (true, mk true true (address st) (port st) (S (started st)) (snd (close n1)))
  /\ start (snd (_server_loop fuel (start st)))
     = snd (_server_loop fuel (start st)).
Proof.
  intros Hr Hc Hl.
  assert (E : _server_loop fuel (start st)
              = (true, mk true true (address st) (port st) (S (started st))
                          (snd (close n1)))).
  { unfold _server_loop, start. rewrite Hr. simpl. rewrite Hc, Hl. reflexivity. }
  split; [exact E|]. rewrite E. reflexivity.
Qed.
End Binding.

Lemma failed_bind_leaves_running_witness :
  Life._server_loop 3
    (Life.start
       (Life.mk false false "0.0.0.0" 8002 0
          (Port.mk [Life.Accepted 1] [] false 0
             (Some (mkExn OtherException "Address already in use")))))
  = (true,
     Life.mk true true "0.0.0.0" 8002 1
       (Port.mk [Life.Accepted 1] [] false 1
          (Some (mkExn OtherException "Address already in use")))).
Proof.
  exact (proj1
           (failed_bind_leaves_running
              (Life.mk false false "0.0.0.0" 8002 0
                 (Port.mk [Life.Accepted 1] [] false 0
                    (Some (mkExn OtherException "Address already in use"))))
              3%nat _ _ (mkExn OtherException "Address already in use")
              eq_refl eq_refl eq_refl)).
Defined.

(* ------------------------------------------------------------------------- *)
(** ** What reaches the options and the file *)

Section Persisting.
Context {W : Type} {C : Collaborators W}.

(** X21.  Only [MODE], [VOLUME] and [FOLLOW] lines can change the options:
    whatever any other line does, and whether it succeeds or fails, the
    options are as before; [SAVE] in particular writes them without changing
    them. *)
Theorem only_setters_change_options
  (line cmd arg : string) (s s' : Server W) (o : outcome string) :
  verb_arg (PyStr.split1 (PyStr.upper line)) = Some (cmd, arg) ->
  PyStr.mem cmd ["MODE"; "VOLUME"; "FOLLOW"] = false ->
  _process_command line s = (o, s') ->
  options s' = options s.
Proof.
  intros Hva Hm H.
  rewrite (process_command_dispatch _ _ _ _ Hva) in H.
  simpl in Hm. repeat (apply orb_false_elim in Hm as [? Hm]).
  unfold Run.try_except, dispatch in H.
  repeat match goal with
         | E : String.eqb cmd _ = false |- _ => rewrite E in H; clear E
         end.
  unfold _cmd_status, flag, _cmd_levels, _cmd_ptt_test, _cmd_clear, _cmd_save,
    any_exception in H.
  run_cases; reflexivity.
Qed.

Lemma keys_set {V} (k k' : string) (v : V) (d : PyDict.t V) :
  In k (PyDict.keys (PyDict.set k' v d)) <-> k = k' \/ In k (PyDict.keys d).
Proof.
  induction d as [|[k0 v0] d IH]; simpl.
  - intuition congruence.
  - destruct (String.eqb_spec k' k0) as [->|Hne]; simpl.
    + intuition congruence.
    + rewrite IH. intuition congruence.
Qed.

Lemma keys_of_items {V} (items : list (string * V)) (k : string) :
  In k (PyDict.keys (PyDict.of_items items)) <-> In k (map fst items).
Proof.
  unfold PyDict.of_items.
  assert (G : forall d, In k (PyDict.keys
                (fold_left (fun d kv => PyDict.set (fst kv) (snd kv) d) items d))
              <-> In k (PyDict.keys d) \/ In k (map fst items)).
  { induction items as [|[k0 v0] items IH]; simpl; intros d.
    - tauto.
    - rewrite IH, keys_set. simpl. intuition congruence. }
  rewrite G. simpl. tauto.
Qed.

Lemma hyphenate_c (k : string) : PyStr.hyphenate k = "c" -> k = "c".
Proof.
  destruct k as [|a [|b k]]; simpl; try discriminate.
  destruct (Ascii.eqb_spec a "_"); [discriminate|]. intros H. exact H.
Qed.

(** X22.  The keys of what [SAVE] serializes are the keys of the options
    other than [c], each with its underscores turned into hyphens, and [c] is
    never among them, whatever the options hold, colliding keys included. *)
Theorem saved_keys (opts : PyDict.t PyVal.t) (key : string) :
  (In key (PyDict.keys (save_items opts)) <->
   exists k, In k (PyDict.keys opts) /\ k <> "c" /\ key = PyStr.hyphenate k)
  /\ ~ In "c" (PyDict.keys (save_items opts)).
Proof.
  assert (G : forall key,
             In key (PyDict.keys (save_items opts)) <->
             exists k, In k (PyDict.keys opts) /\ k <> "c"
                       /\ key = PyStr.hyphenate k).
  { intros x. unfold save_items. rewrite keys_of_items, map_map. simpl.
    rewrite in_map_iff. split.
    - intros ([k v] & <- & Hin). apply filter_In in Hin as [Hin Hp].
      exists k. simpl in *. repeat split.
      + apply in_map_iff. exists (k, v). auto.
      + apply negb_true_iff, String.eqb_neq in Hp. exact Hp.
    - intros (k & Hin & Hk & ->). apply in_map_iff in Hin as ([k0 v] & <- & Hin).
      exists (k0, v). split; [reflexivity|]. apply filter_In. split; [exact Hin|].
      simpl in *. apply negb_true_iff, String.eqb_neq. exact Hk. }
  split; [apply G|].
  intros Hc. apply G in Hc as (k & _ & Hk & E). symmetry in E.
  apply hyphenate_c in E. contradiction.
Qed.

End Persisting.

Lemma only_setters_change_options_witness :
  options (snd (_process_command "save" Rig.server)) = options Rig.server.
Proof.
  apply (only_setters_change_options (W := Rig.t) "save" "SAVE" ""
           Rig.server (snd (_process_command "save" Rig.server))
           (fst (_process_command "save" Rig.server)));
    vm_compute; reflexivity.
Defined.
